(** * worker/handler/handler.go: Handler, HandlerSet and the orphan reaper

    A shallow embedding of the request-admission core of the worker:
    [HandlerSet.Get], [HandlerSet.killOrphans], [HandlerSet.Dump],
    [Handler.RunStart], [Handler.RunFinish] and [Handler.nuke].

    The collaborators (registry manager, sandbox factory, sandbox, pool
    manager, the file system and the clock) are interfaces in the source;
    here each call of a collaborator takes its answer from an oracle [Env],
    and is recorded, in program order, in a list of [Call]s. *)

From stdpp Require Import gmap strings list fin_maps.
From Stdlib Require Import ZArith Lia.

Local Open Scope Z_scope.

(** ** Machine integers *)

(** Go's [int] and [int64] on the 64-bit targets the worker runs on:
    two's complement, silent wrap-around. *)
Definition wrap64 (x : Z) : Z := (x + 2 ^ 63) mod 2 ^ 64 - 2 ^ 63.
Definition max_int : Z := 2 ^ 63 - 1.
Definition min_int : Z := - 2 ^ 63.

(** ** Data model *)

(** package state: the values of [state.HandlerState] the handler names. *)
Inductive HandlerState := Unitialized | Running | Paused | Stopped.

Global Instance HandlerState_eq_dec : EqDecision HandlerState.
Proof. solve_decision. Defined.

(** [sb.Sandbox] is an interface; a value is identified by [sbId], and
    [isContainerSandbox] is the outcome of the type assertion
    [h.sandbox.(sb.ContainerSandbox)]. *)
Record Sandbox := mkSandbox { sbId : nat; isContainerSandbox : bool }.

Global Instance Sandbox_eq_dec : EqDecision Sandbox.
Proof. solve_decision. Defined.

(** [*policy.ForkServer] and [*sb.SandboxChannel]: opaque references. *)
Definition ForkServer := nat.
Definition SandboxChannel := nat.

(** Go [error] values.  An [oserror] is an error made outside this file,
    by a collaborator or by the operating system: [errNotExist] stands for
    those on which [os.IsNotExist] answers true, [errOther] for all others.
    An [error] is either such a value handed on unchanged, or the fresh
    value of an [errors.New(msg)] in this file. *)
Inductive oserror :=
| errNotExist (path : string)
| errOther (msg : string).

Inductive error :=
| External (e : oserror)
| errNew (msg : string).

Global Instance oserror_eq_dec : EqDecision oserror.
Proof. solve_decision. Defined.
Global Instance error_eq_dec : EqDecision error.
Proof. solve_decision. Defined.

(** [os.IsNotExist(err)]; a nil [err] is [None]. *)
Definition IsNotExist (err : option oserror) : bool :=
  match err with
  | Some (errNotExist _) => true
  | _ => false
  end.

(** [type Handler struct].  The [mutex] field is modelled by the lock
    events and the lock state below, [hset] by the [HandlerSet] that is
    threaded next to the handler, and [code] is never read or written. *)
Record Handler := mkHandler {
  name : string;
  sandbox : option Sandbox;          (* nil interface = None *)
  lastPull : option Z;               (* *time.Time, in ns *)
  state : HandlerState;
  runners : Z;
  codeDir : string;
  pkgs : list string;
  sandboxDir : string;
  fs : option ForkServer;
  usage : Z
}.

Definition set_lastPull (t : Z) (cd : string) (ps : list string) (h : Handler) : Handler :=
  mkHandler (name h) (sandbox h) (Some t) (state h) (runners h) cd ps
            (sandboxDir h) (fs h) (usage h).
Definition set_sandbox (s : Sandbox) (h : Handler) : Handler :=
  mkHandler (name h) (Some s) (lastPull h) (state h) (runners h) (codeDir h) (pkgs h)
            (sandboxDir h) (fs h) (usage h).
Definition set_state (st : HandlerState) (h : Handler) : Handler :=
  mkHandler (name h) (sandbox h) (lastPull h) st (runners h) (codeDir h) (pkgs h)
            (sandboxDir h) (fs h) (usage h).
Definition set_runners (r : Z) (h : Handler) : Handler :=
  mkHandler (name h) (sandbox h) (lastPull h) (state h) r (codeDir h) (pkgs h)
            (sandboxDir h) (fs h) (usage h).
Definition set_fs (f : option ForkServer) (h : Handler) : Handler :=
  mkHandler (name h) (sandbox h) (lastPull h) (state h) (runners h) (codeDir h) (pkgs h)
            (sandboxDir h) f (usage h).

(** Modelled from the spec: [HandlerLRU] (lru.go is not among the sources).
    "ordered set of Paused Handlers, ordered by recency of insertion";
    [members] lists (name, usage) with the most recently paused first. *)
Record HandlerLRU := mkLRU { capacity : Z; members : list (string * Z) }.

Definition lru_usage (l : list (string * Z)) : Z :=
  foldr (fun e acc => e.2 + acc) 0 l.

(** Modelled from the spec: "Remove(handler): removes handler from the cache
    if present; no-op if absent". *)
Definition lru_remove (n : string) (l : list (string * Z)) : list (string * Z) :=
  filter (fun e => e.1 ≠ n) l.

Definition lru_Remove (n : string) (c : HandlerLRU) : HandlerLRU :=
  mkLRU (capacity c) (lru_remove n (members c)).

(** Modelled from the spec: "Add(handler): inserts or moves handler to the
    most-recently-used position" ... *)
Definition lru_insert (n : string) (u : Z) (l : list (string * Z)) : list (string * Z) :=
  (n, u) :: lru_remove n l.

(** ... "if total usage now exceeds capacity, evict least-recently-used
    members (oldest first) ... until usage is at or below capacity or no
    evictable members remain".  [lru_evict cap l] takes the members oldest
    first and drops the oldest for as long as the usage of what is left
    exceeds [cap].  The teardown of an evicted handler acts on that
    handler's sandbox and is not recorded here. *)
Fixpoint lru_evict (cap : Z) (rev_l : list (string * Z)) : list (string * Z) :=
  match rev_l with
  | [] => []
  | oldest :: rest =>
      if cap <? lru_usage rev_l then lru_evict cap rest else rev_l
  end.

Definition lru_Add (n : string) (u : Z) (c : HandlerLRU) : HandlerLRU :=
  mkLRU (capacity c)
        (rev (lru_evict (capacity c) (rev (lru_insert n u (members c))))).

(** [type HandlerSet struct].  A [*Handler] is an index into the store of
    allocated handlers ([heap] of [Registry], below); a map value is [None] for a nil
    pointer.  [regMgr], [sbFactory] and the methods of [poolMgr] answer
    through [Env]; [poolMgr] here records only whether the field is nil.
    [config] is not used after construction. *)
Record HandlerSet := mkHandlerSet {
  handlers : gmap string (option nat);
  poolMgr : bool;                    (* poolMgr != nil *)
  lru : HandlerLRU;
  workerDir : string;
  pipMirror : string;
  hhits : Z;
  ihits : Z;
  misses : Z
}.

Definition set_handlers (m : gmap string (option nat)) (s : HandlerSet) : HandlerSet :=
  mkHandlerSet m (poolMgr s) (lru s) (workerDir s) (pipMirror s)
               (hhits s) (ihits s) (misses s).
Definition set_lru (c : HandlerLRU) (s : HandlerSet) : HandlerSet :=
  mkHandlerSet (handlers s) (poolMgr s) c (workerDir s) (pipMirror s)
               (hhits s) (ihits s) (misses s).
Definition set_hhits (v : Z) (s : HandlerSet) : HandlerSet :=
  mkHandlerSet (handlers s) (poolMgr s) (lru s) (workerDir s) (pipMirror s)
               v (ihits s) (misses s).
Definition set_ihits (v : Z) (s : HandlerSet) : HandlerSet :=
  mkHandlerSet (handlers s) (poolMgr s) (lru s) (workerDir s) (pipMirror s)
               (hhits s) v (misses s).
Definition set_misses (v : Z) (s : HandlerSet) : HandlerSet :=
  mkHandlerSet (handlers s) (poolMgr s) (lru s) (workerDir s) (pipMirror s)
               (hhits s) (ihits s) v.

(** ** Collaborators *)

Inductive Mutex :=
| RegMu                 (* HandlerSet.mutex *)
| HMu (p : nat).        (* the mutex of the Handler at address p *)

Global Instance Mutex_eq_dec : EqDecision Mutex.
Proof. solve_decision. Defined.

Inductive Counter := Chhits | Cihits | Cmisses.

Global Instance Counter_eq_dec : EqDecision Counter.
Proof. solve_decision. Defined.

Inductive LogMsg :=
| LogHits (h i m : Z)                        (* "handler hits: ..., import hits: ..., misses: ..." *)
| LogPauseFailed (n : string) (e : oserror)   (* "Could not pause ...!  Error: ..." *)
| LogHandlers                                (* "HANDLERS:" *)
| LogHandler (n : string) (st : HandlerState).

Global Instance LogMsg_eq_dec : EqDecision LogMsg.
Proof. solve_decision. Defined.

(** What a handler operation asks of the outside, in program order. *)
Inductive Call :=
| CLock | CUnlock                            (* h.mutex.Lock / the deferred Unlock *)
| CPull (n : string)
| CNow
| CMkdirAll (dir : string)
| CCreate (cd sd mirror : string)
| CState (s : Sandbox)
| CStart (s : Sandbox)
| CUnpause (s : Sandbox)
| CPause (s : Sandbox)
| CStop (s : Sandbox)
| CRemove (s : Sandbox)
| CProvision (s : Sandbox) (sd : string) (ps : list string)
| CAtomicAdd (c : Counter)
| CStat (path : string)
| CSince
| CSleep (ms : Z)
| CLruRemove (n : string)
| CLruAdd (n : string)
| CLog (m : LogMsg)
| CChannel (s : Sandbox).

Global Instance Call_eq_dec : EqDecision Call.
Proof. solve_decision. Defined.

(** The answers of the collaborators during one operation.  [Stat k] and
    [Since k] answer the [k]-th [os.Stat(sockPath)] and the [k]-th reading
    of [time.Since(start)] (a [time.Duration], in nanoseconds). *)
Record Env := mkEnv {
  Pull : string -> oserror + (string * list string);
  Now : Z;
  MkdirAll : string -> option oserror;
  Create : string -> string -> string -> oserror + Sandbox;
  State : Sandbox -> HandlerState * option oserror;
  Start : Sandbox -> option oserror;
  Unpause : Sandbox -> option oserror;
  Pause : Sandbox -> option oserror;
  Provision : Sandbox -> string -> list string -> option ForkServer * bool * option oserror;
  Stat : nat -> option oserror;
  Since : nat -> Z;
  Channel : Sandbox -> option SandboxChannel * option oserror
}.

(** ** A state monad with early return for the handler operations *)

(** The state a handler operation works on: the receiver [h], the
    [HandlerSet] it points to ([h.hset]), and the calls made so far. *)
Record RS := mkRS { hd : Handler; hs : HandlerSet; calls : list Call }.

(** How an operation ends: a normal return, an early [return nil, err], a
    run-time panic (nil dereference), or not at all within the number of
    loop iterations granted ([Spin]). *)
Inductive outcome (A : Type) :=
| Done (a : A)
| Fail (e : error)
| Panic
| Spin.
Arguments Done {A} a.
Arguments Fail {A} e.
Arguments Panic {A}.
Arguments Spin {A}.

Definition M (A : Type) : Type := RS -> outcome A * RS.

Definition ret {A} (a : A) : M A := fun s => (Done a, s).
Definition bind {A B} (m : M A) (k : A -> M B) : M B :=
  fun s =>
    match m s with
    | (Done a, s') => k a s'
    | (Fail e, s') => (Fail e, s')
    | (Panic, s') => (Panic, s')
    | (Spin, s') => (Spin, s')
    end.

Notation "'let*' x ':=' m 'in' k" := (bind m (fun x => k))
  (at level 10, x name, m at level 100, k at level 200, only parsing).
Notation "m >> k" := (bind m (fun _ => k))
  (at level 100, right associativity, only parsing).

Definition throw {A} (e : error) : M A := fun s => (Fail e, s).
Definition panic {A} : M A := fun s => (Panic, s).
Definition spin {A} : M A := fun s => (Spin, s).
Definition getH : M Handler := fun s => (Done (hd s), s).
Definition getS : M HandlerSet := fun s => (Done (hs s), s).
Definition modH (f : Handler -> Handler) : M unit :=
  fun s => (Done tt, mkRS (f (hd s)) (hs s) (calls s)).
Definition modS (f : HandlerSet -> HandlerSet) : M unit :=
  fun s => (Done tt, mkRS (hd s) (f (hs s)) (calls s)).
Definition emit (c : Call) : M unit :=
  fun s => (Done tt, mkRS (hd s) (hs s) (calls s ++ [c])).
Definition call {A} (c : Call) (answer : A) : M A := emit c >> ret answer.

(** [if err != nil { return nil, err }] *)
Definition check (err : option oserror) : M unit :=
  match err with
  | Some e => throw (External e)
  | None => ret tt
  end.

(** [h.mutex.Lock(); defer h.mutex.Unlock()]: the deferred unlock runs on
    every return and while a panic unwinds, not while the body still runs. *)
Definition locked {A} (body : M A) : M A :=
  fun s =>
    match body (mkRS (hd s) (hs s) (calls s ++ [CLock])) with
    | (Spin, s') => (Spin, s')
    | (o, s') => (o, mkRS (hd s') (hs s') (calls s' ++ [CUnlock]))
    end.

(** [atomic.AddInt64(ptr, 1)] on the three shared counters. *)
Definition atomicAdd (c : Counter) : M unit :=
  emit (CAtomicAdd c) >>
  modS (fun s =>
          match c with
          | Chhits => set_hhits (wrap64 (hhits s + 1)) s
          | Cihits => set_ihits (wrap64 (ihits s + 1)) s
          | Cmisses => set_misses (wrap64 (misses s + 1)) s
          end).

(** [h.hset.lru.Remove(h)] and [h.hset.lru.Add(h)]. *)
Definition lruRemove : M unit :=
  let* h := getH in
  emit (CLruRemove (name h)) >>
  modS (fun s => set_lru (lru_Remove (name h) (lru s)) s).

Definition lruAdd : M unit :=
  let* h := getH in
  emit (CLruAdd (name h)) >>
  modS (fun s => set_lru (lru_Add (name h) (usage h) (lru s)) s).

(** ** Handler.RunStart *)

(** [time.Since(start).Seconds() > 45].  [Seconds] converts the int64
    nanosecond count [d] to a float64 as [float64(d/1e9) + float64(d%1e9)/1e9];
    that sum exceeds 45 exactly when [d] exceeds 45e9 nanoseconds. *)
Definition deadline_ns : Z := 45 * 10 ^ 9.
Definition past_deadline (d : Z) : bool := deadline_ns <? d.

Definition init_timeout : error :=
  errNew "handler server failed to initialize after 30s".

(** The readiness loop
    [for ok := true; ok; ok = os.IsNotExist(err) {
        _, err = os.Stat(sockPath)
        if time.Since(start).Seconds() > 45 { return nil, errors.New(...) } }]
    [k] counts the iterations already made; [fuel] bounds those still
    allowed. *)
Fixpoint waitSock (fuel : nat) (E : Env) (sockPath : string) (k : nat) : M unit :=
  match fuel with
  | O => spin
  | S fuel' =>
      let* err := call (CStat sockPath) (Stat E k) in
      let* d := call CSince (Since E k) in
      if past_deadline d then throw init_timeout
      else if IsNotExist err then waitSock fuel' E sockPath (S k)
      else ret tt
  end.

(** The branch [if h.sandbox == nil { ... }]. *)
Definition createSandbox (fuel : nat) (E : Env) : M unit :=
  let* h := getH in
  let* s := getS in
  let* err := call (CMkdirAll (sandboxDir h)) (MkdirAll E (sandboxDir h)) in
  check err >>
  let* r := call (CCreate (codeDir h) (sandboxDir h) (pipMirror s))
           (Create E (codeDir h) (sandboxDir h) (pipMirror s)) in
  match r with
  | inl e => throw (External e)
  | inr sbx =>
      modH (set_sandbox sbx) >>
      let* st := call (CState sbx) (State E sbx) in
      modH (set_state st.1) >>
      check st.2 >>
      (* newly created sandbox could be in any state; let it run *)
      (match st.1 with
       | Stopped => let* err := call (CStart sbx) (Start E sbx) in check err
       | Paused => let* err := call (CUnpause sbx) (Unpause E sbx) in check err
       | _ => ret tt
       end) >>
      let* hit :=
        (if poolMgr s then
           if isContainerSandbox sbx then
             let* p := call (CProvision sbx (sandboxDir h) (pkgs h))
                            (Provision E sbx (sandboxDir h) (pkgs h)) in
             modH (set_fs p.1.1) >>
             check p.2 >>
             ret p.1.2
           else throw (errNew "forkenter only supported with ContainerSandbox")
         else ret false) in
      atomicAdd (if hit then Cihits else Cmisses) >>
      (* wait up to 30s for server to initialize *)
      call CNow tt >>
      waitSock fuel E (sandboxDir h +:+ "/ol.sock") 0
  end.

Definition RunStart_body (fuel : nat) (E : Env) : M (option SandboxChannel * option error) :=
  (* get code if needed *)
  let* h := getH in
  (match lastPull h with
   | None =>
       let* r := call (CPull (name h)) (Pull E (name h)) in
       match r with
       | inl e => throw (External e)
       | inr (cd, ps) =>
           let* now := call CNow (Now E) in
           modH (set_lastPull now cd ps)
       end
   | Some _ => ret tt
   end) >>
  (* create sandbox if needed *)
  let* h := getH in
  (match sandbox h with
   | None => createSandbox fuel E
   | Some sbx =>
       if decide (state h = Paused) then
         (* unpause if paused *)
         atomicAdd Chhits >>
         let* err := call (CUnpause sbx) (Unpause E sbx) in
         check err >>
         lruRemove
       else atomicAdd Chhits
   end) >>
  modH (set_state Running) >>
  modH (fun h => set_runners (wrap64 (runners h + 1)) h) >>
  let* s := getS in
  emit (CLog (LogHits (hhits s) (ihits s) (misses s))) >>
  let* h := getH in
  match sandbox h with
  | None => panic
  | Some sbx =>
      let* c := call (CChannel sbx) (Channel E sbx) in
      ret (c.1, External <$> c.2)
  end.

(** [func (h *Handler) RunStart() (ch *sb.SandboxChannel, err error)]:
    an early [return nil, err] is the pair [(None, Some err)]. *)
Definition RunStart (fuel : nat) (E : Env) : M (option SandboxChannel * option error) :=
  fun s =>
    match locked (RunStart_body fuel E) s with
    | (Fail e, s') => (Done (None, Some e), s')
    | r => r
    end.

(** ** Handler.RunFinish and Handler.nuke *)

Definition RunFinish (E : Env) : M unit :=
  locked (
    modH (fun h => set_runners (wrap64 (runners h - 1)) h) >>
    let* h := getH in
    (* are we the last? *)
    if runners h =? 0 then
      match sandbox h with
      | None => panic
      | Some sbx =>
          let* err := call (CPause sbx) (Pause E sbx) in
          (match err with
           | Some e => emit (CLog (LogPauseFailed (name h) e))
           | None => ret tt
           end) >>
          modH (set_state Paused) >>
          lruAdd
      end
    else ret tt).

(** The three step results are dropped by the source. *)
Definition nuke (E : Env) : M unit :=
  let* h := getH in
  match sandbox h with
  | None => panic
  | Some sbx =>
      call (CUnpause sbx) (Unpause E sbx) >>
      call (CStop sbx) tt >>
      call (CRemove sbx) tt >>
      ret tt
  end.

(** [func (h *Handler) Sandbox() sb.Sandbox] *)
Definition Sandbox_of (h : Handler) : option Sandbox := sandbox h.

(** ** The registry: HandlerSet.Get, HandlerSet.Dump, HandlerSet.killOrphans *)

(** The registry together with the store of allocated handlers: the
    [*Handler] [p] denotes [heap !! p]. *)
Record Registry := mkRegistry { hset : HandlerSet; heap : list Handler }.

(** What the registry operations do, in program order. *)
Inductive REvent :=
| ESleep (ms : Z)
| ELock (m : Mutex)
| EDeferUnlock (m : Mutex)
| EUnlock (m : Mutex)
| ESetNil (n : string)               (* h.handlers[n] = nil *)
| EGoNuke (p : nat)                  (* go handler.nuke() *)
| EPrint (m : LogMsg).

Global Instance REvent_eq_dec : EqDecision REvent.
Proof. solve_decision. Defined.

(** How a call of [Get] or [Dump] ends: it returns; it panics; or its
    [h.mutex.Lock()] finds the mutex [m] locked and waits for an [Unlock]
    of the holder. *)
Inductive called (A : Type) :=
| Returns (a : A)
| Panics
| Waits (m : Mutex).
Arguments Returns {A} a.
Arguments Panics {A}.
Arguments Waits {A} m.

Section WithPathJoin.

(** [path.Join] of the Go library. *)
Variable path_Join : list string -> string.

(** The composite literal [&Handler{name: ..., hset: h, state:
    state.Unitialized, runners: 0, pkgs: []string{}, sandboxDir: ...}];
    the fields it leaves out hold their zero values. *)
Definition newHandler (n : string) (wd : string) : Handler :=
  mkHandler n None None Unitialized 0 "" []
            (path_Join [wd; "handlers"; n; "sandbox"]) None 0.

(** The body of [Get] between [h.mutex.Lock()] and the deferred
    [h.mutex.Unlock()].  Indexing a Go map at an absent key yields nil, as
    does a key whose value is nil. *)
Definition getOrInsert (n : string) (r : Registry) : nat * Registry :=
  match handlers (hset r) !! n with
  | Some (Some p) => (p, r)
  | _ =>
      let p := length (heap r) in
      (p,
       mkRegistry (set_handlers (<[n := Some p]> (handlers (hset r))) (hset r))
                  (heap r ++ [newHandler n (workerDir (hset r))]))
  end.

(** [func (h *HandlerSet) Get(name string) *Handler].  [taken] lists the
    mutexes that another goroutine holds when the call is made: with the
    registry mutex among them, [h.mutex.Lock()] waits, and the call does
    nothing until the holder unlocks. *)
Definition Get (n : string) (taken : list Mutex) (r : Registry)
  : called (nat * Registry) * list REvent :=
  if decide (RegMu ∈ taken) then (Waits RegMu, [])
  else (Returns (getOrInsert n r), [ELock RegMu; EUnlock RegMu]).

End WithPathJoin.

(** [for k, v := range h.handlers { log.Printf(..., k, v.state.String()) }];
    [None] is the nil-pointer panic of [v.state] on a nil [v]. *)
Fixpoint dumpEntries (hp : list Handler) (es : list (string * option nat))
  : option (list REvent) :=
  match es with
  | [] => Some []
  | (k, v) :: es' =>
      match v with
      | None => None
      | Some p =>
          match hp !! p with
          | None => None
          | Some h =>
              match dumpEntries hp es' with
              | None => None
              | Some evs => Some (EPrint (LogHandler k (state h)) :: evs)
              end
          end
      end
  end.

(** [func (h *HandlerSet) Dump()]; [taken] as for [Get].  The deferred
    [Unlock] also runs when the loop panics. *)
Definition Dump (taken : list Mutex) (r : Registry) : called unit * list REvent :=
  if decide (RegMu ∈ taken) then (Waits RegMu, [])
  else
    match dumpEntries (heap r) (map_to_list (handlers (hset r))) with
    | None => (Panics, [ELock RegMu; EPrint LogHandlers; EUnlock RegMu])
    | Some evs =>
        (Returns tt, [ELock RegMu; EPrint LogHandlers] ++ evs ++ [EUnlock RegMu])
    end.

(** *** The orphan reaper *)

(** The reaper goroutine: the registry, the mutexes this goroutine has
    locked and not unlocked, the deferred calls of the running
    [killOrphans] frame, the number of sleeps so far and the events. *)
Record Reaper := mkReaper {
  reg : Registry;
  held : list Mutex;
  deferred : list Mutex;
  sleeps : nat;
  events : list REvent
}.

(** How a run of the reaper stands when it stops being followed. *)
Inductive stop :=
| OutOfFuel                    (* still looping *)
| Deadlock (m : Mutex)         (* Lock of a mutex this goroutine already holds *)
| UnlockOfUnlocked (m : Mutex) (* fatal error: sync: unlock of unlocked mutex *)
| NilDeref.                    (* panic: nil pointer dereference *)

Definition R (A : Type) : Type := Reaper -> (stop + A) * Reaper.

Definition rret {A} (a : A) : R A := fun r => (inr a, r).
Definition rbind {A B} (m : R A) (k : A -> R B) : R B :=
  fun r => match m r with
           | (inl st, r') => (inl st, r')
           | (inr a, r') => k a r'
           end.
Notation "'rlet' x ':=' m 'in' k" := (rbind m (fun x => k))
  (at level 10, x name, m at level 100, k at level 200, only parsing).
Notation "m >>> k" := (rbind m (fun _ => k))
  (at level 100, right associativity, only parsing).

Definition rstop {A} (st : stop) : R A := fun r => (inl st, r).
Definition rev_emit (e : REvent) : R unit :=
  fun r => (inr tt, mkReaper (reg r) (held r) (deferred r) (sleeps r) (events r ++ [e])).

(** [sync.Mutex] is not reentrant: [Lock] on a mutex the goroutine holds
    waits for an [Unlock] that only this goroutine could issue.  A mutex
    the reaper does not hold is taken to become available. *)
Definition rLock (m : Mutex) : R unit :=
  fun r =>
    if decide (m ∈ held r) then (inl (Deadlock m), r)
    else (inr tt, mkReaper (reg r) (m :: held r) (deferred r) (sleeps r)
                           (events r ++ [ELock m])).

Definition rUnlock (m : Mutex) : R unit :=
  fun r =>
    if decide (m ∈ held r)
    then (inr tt, mkReaper (reg r) (filter (fun x => x ≠ m) (held r)) (deferred r)
                           (sleeps r) (events r ++ [EUnlock m]))
    else (inl (UnlockOfUnlocked m), r).

Definition rDefer (m : Mutex) : R unit :=
  fun r => (inr tt, mkReaper (reg r) (held r) (m :: deferred r) (sleeps r)
                             (events r ++ [EDeferUnlock m])).

(** [h.handlers[handler.name] = nil]: the key stays, its value is nil. *)
Definition unlink (n : string) (g : Registry) : Registry :=
  mkRegistry (set_handlers (<[n := None]> (handlers (hset g))) (hset g)) (heap g).

Definition rUnlink (n : string) : R unit :=
  fun r => (inr tt, mkReaper (unlink n (reg r)) (held r) (deferred r) (sleeps r)
                             (events r ++ [ESetNil n])).

Section WithOthers.

(** What the other goroutines do to the handlers while the reaper sleeps
    for the [k]-th time. *)
Variable others : nat -> list Handler -> list Handler.

Definition rSleep (ms : Z) : R unit :=
  fun r => (inr tt, mkReaper (mkRegistry (hset (reg r)) (others (sleeps r) (heap (reg r))))
                             (held r) (deferred r) (S (sleeps r))
                             (events r ++ [ESleep ms])).

Definition rHandler (p : nat) : R Handler :=
  fun r => match heap (reg r) !! p with
           | Some h => (inr h, r)
           | None => (inl NilDeref, r)
           end.

(** [for handler.runners > 0 { handler.mutex.Unlock();
      time.Sleep(1 * time.Millisecond); handler.mutex.Lock() }] *)
Fixpoint drain (fuel : nat) (p : nat) : R unit :=
  rlet h := rHandler p in
  if 0 <? runners h then
    match fuel with
    | O => rstop OutOfFuel
    | S fuel' =>
        rUnlock (HMu p) >>> rSleep 1 >>> rLock (HMu p) >>> drain fuel' p
    end
  else rret tt.

(** The body of [for _, handler := range h.handlers { ... }]. *)
Definition visit (fuel : nat) (entry : string * option nat) : R unit :=
  match entry.2 with
  | None => rstop NilDeref              (* handler.mutex on a nil handler *)
  | Some p =>
      rLock (HMu p) >>>
      rlet h := rHandler p in
      (if bool_decide (sandbox h ≠ None) && bool_decide (fs h = None) then
         rLock RegMu >>>
         rUnlink (name h) >>>
         rUnlock RegMu >>>
         drain fuel p >>>
         rev_emit (EGoNuke p)
       else rret tt) >>>
      rUnlock (HMu p)
  end.

Fixpoint visitAll (fuel : nat) (es : list (string * option nat)) : R unit :=
  match es with
  | [] => rret tt
  | e :: es' => visit fuel e >>> visitAll fuel es'
  end.

(** One iteration of the outer [for { ... }]: the entries are ranged over
    in the order of [map_to_list]. *)
Definition scan (fuel : nat) : R unit :=
  rSleep 5 >>>
  rLock RegMu >>>
  rDefer RegMu >>>
  fun r => visitAll fuel (map_to_list (handlers (hset (reg r)))) r.

(** [func (h *HandlerSet) killOrphans()]: the loop has no exit, so the
    deferred unlocks never run; [n] scans are followed. *)
Fixpoint killOrphans (n : nat) (fuel : nat) : R unit :=
  match n with
  | O => rstop OutOfFuel
  | S n' => scan fuel >>> killOrphans n' fuel
  end.

End WithOthers.

(** * Notions used in the properties, and sample data *)

(** The calls of [n] iterations of the readiness loop. *)
Definition polls (p : string) (n : nat) : list Call :=
  concat (replicate n [CStat p; CSince]).

(** The loop of [waitSock] read off the oracle alone: how it ends and how
    many times it polled. *)
Fixpoint pollOutcome (fuel : nat) (E : Env) (k : nat) : outcome unit * nat :=
  match fuel with
  | O => (Spin, O)
  | S fuel' =>
      if past_deadline (Since E k) then (Fail init_timeout, 1%nat)
      else if IsNotExist (Stat E k)
           then (let r := pollOutcome fuel' E (S k) in (r.1, S r.2))
           else (Done tt, 1%nat)
  end.

(** The [k]-th poll is one after which the loop goes round again. *)
Definition still_waiting (E : Env) (k : nat) : Prop :=
  past_deadline (Since E k) = false /\ IsNotExist (Stat E k) = true.

(** The calls an operation added. *)
Definition newCalls (s s' : RS) : list Call := drop (length (calls s)) (calls s').

(** What [RunStart] hands back when it reaches its last line,
    [return h.sandbox.Channel()]. *)
Definition returned (E : Env) (sbx : Sandbox) : option SandboxChannel * option error :=
  ((Channel E sbx).1, External <$> (Channel E sbx).2).

(** [RunStart] ran to its last line: the request is counted. *)
Definition counted_in (E : Env) (s : RS)
    (r : outcome (option SandboxChannel * option error) * RS) : Prop :=
  exists sbx, sandbox (hd r.2) = Some sbx /\ r.1 = Done (returned E sbx) /\
    state (hd r.2) = Running /\ runners (hd r.2) = wrap64 (runners (hd s) + 1) /\
    lastPull (hd r.2) <> None /\
    (sandbox (hd s) <> None -> sandbox (hd r.2) = sandbox (hd s)).

(** [RunStart] left early, or is still polling: the request is not counted. *)
Definition turned_away (s : RS)
    (r : outcome (option SandboxChannel * option error) * RS) : Prop :=
  ((exists e, r.1 = Done (None, Some e)) \/ r.1 = Spin) /\
  runners (hd r.2) = runners (hd s) /\
  (lastPull (hd r.2) = None -> hd r.2 = hd s) /\
  (sandbox (hd s) <> None -> lastPull (hd s) <> None -> hd r.2 = hd s) /\
  (sandbox (hd s) = None ->
     (sandbox (hd r.2) = None /\ state (hd r.2) = state (hd s)) \/
     (sandbox (hd r.2) <> None /\ lastPull (hd r.2) <> None)).

(** The states a handler can be in: made by [Get], then subject to
    [RunStart], [RunFinish] and [nuke] in any order and with any answers of
    the collaborators, while operations on other handlers change the shared
    [HandlerSet]. *)
Inductive reachable : RS -> Prop :=
| reach_new (join : list string -> string) (n wd : string) (S : HandlerSet) (cs : list Call) :
    reachable (mkRS (newHandler join n wd) S cs)
| reach_RunStart (fuel : nat) (E : Env) (s : RS) :
    reachable s -> reachable (RunStart fuel E s).2
| reach_RunFinish (E : Env) (s : RS) :
    reachable s -> reachable (RunFinish E s).2
| reach_nuke (E : Env) (s : RS) :
    reachable s -> reachable (nuke E s).2
| reach_shared (s : RS) (S : HandlerSet) (cs : list Call) :
    reachable s -> reachable (mkRS (hd s) S cs).

(** Code is fetched before a sandbox is made, and the state is only
    written once a sandbox exists. *)
Definition wfH (h : Handler) : Prop :=
  (lastPull h = None -> sandbox h = None) /\
  (sandbox h = None -> state h = Unitialized).

(** A stand-in for [path.Join] on the sample data. *)
Definition join_slash (l : list string) : string :=
  match l with
  | [] => ""
  | x :: xs => foldl (fun a b => a +:+ "/" +:+ b) x xs
  end.

(** A container sandbox, and collaborators that all succeed. *)
Definition demoSandbox : Sandbox := mkSandbox 7 true.

(** The marker is absent at the first two polls, one second apart, and
    present at the third. *)
Definition demoEnv : Env :=
  mkEnv (fun n => inr ("/registry/" +:+ n, ["numpy"])) 1000 (fun _ => None)
        (fun _ _ _ => inr demoSandbox) (fun _ => (Stopped, None))
        (fun _ => None) (fun _ => None) (fun _ => None)
        (fun _ _ _ => (Some 3%nat, true, None))
        (fun k => if (k <? 2)%nat then Some (errNotExist "ol.sock") else None)
        (fun k => Z.of_nat k * 10 ^ 9)
        (fun _ => (Some 11%nat, None)).

(** A [HandlerSet] with a pool manager, and the handler "f" as [Get] makes
    it, after one [RunStart], and after the [RunFinish] that follows. *)
Definition demoSet : HandlerSet :=
  mkHandlerSet ∅ true (mkLRU 100 []) "/w" "mirror" 0 0 0.

Definition freshDemo : RS := mkRS (newHandler join_slash "f" "/w") demoSet [].
Definition runningDemo : RS := (RunStart 5 demoEnv freshDemo).2.
Definition pausedDemo : RS := (RunFinish demoEnv runningDemo).2.

(** The two operations callers apply to a handler. *)
Inductive Op :=
| OpRunStart (fuel : nat) (E : Env)
| OpRunFinish (E : Env).

(** The states a handler passes through under a sequence of operations.
    An operation that does not return (a panic, or a poll that goes on for
    ever under the handler's lock) is the last thing that happens to it. *)
Fixpoint history (ops : list Op) (s : RS) : list RS :=
  s ::
  match ops with
  | [] => []
  | OpRunStart fuel E :: ops' =>
      match RunStart fuel E s with
      | (Done _, s') => history ops' s'
      | (_, s') => [s']
      end
  | OpRunFinish E :: ops' =>
      match RunFinish E s with
      | (Done _, s') => history ops' s'
      | (_, s') => [s']
      end
  end.

(** Each RunFinish is preceded by a successful RunStart of its own:
    [open] counts the successful RunStarts not yet finished. *)
Fixpoint paired (open : nat) (ops : list Op) (s : RS) : bool :=
  match ops with
  | [] => true
  | OpRunStart fuel E :: ops' =>
      match RunStart fuel E s with
      | (Done (_, None), s') => paired (S open) ops' s'
      | (Done (_, Some _), s') => paired open ops' s'
      | _ => true
      end
  | OpRunFinish E :: ops' =>
      match open with
      | O => false
      | S open' =>
          match RunFinish E s with
          | (Done _, s') => paired open' ops' s'
          | _ => true
          end
      end
  end.

(** The invariant of the data model on [runners]. *)
Definition runners_inv (s : RS) : Prop :=
  0 <= runners (hd s) /\ (0 < runners (hd s) -> state (hd s) = Running).

(** Two overlapping requests, then a third after both have finished. *)
Definition demoOps : list Op :=
  [OpRunStart 5 demoEnv; OpRunStart 5 demoEnv; OpRunFinish demoEnv;
   OpRunFinish demoEnv; OpRunStart 5 demoEnv].

(** The call gets as far as the readiness loop: granted no poll at all,
    it stops, and the loop entry is the only place where it can. *)
Definition reaches_poll (E : Env) (s : RS) : Prop := (RunStart 0 E s).1 = Spin.

(** Some poll, made within the bound, finds the marker: [os.Stat] answers
    without an error. *)
Definition marker_seen_in_time (E : Env) : Prop :=
  exists k, Stat E k = None /\ past_deadline (Since E k) = false.

(** [os.Stat] fails at every poll with an error other than not-exist, as it
    does when the sandbox directory cannot be searched. *)
Definition deniedEnv : Env :=
  mkEnv (Pull demoEnv) (Now demoEnv) (MkdirAll demoEnv) (Create demoEnv) (State demoEnv)
        (Start demoEnv) (Unpause demoEnv) (Pause demoEnv) (Provision demoEnv)
        (fun _ => Some (errOther "permission denied"))
        (fun k => Z.of_nat (S k) * 10 ^ 9)
        (Channel demoEnv).

(** The marker never appears; the polls are twenty seconds apart. *)
Definition slowEnv : Env :=
  mkEnv (Pull demoEnv) (Now demoEnv) (MkdirAll demoEnv) (Create demoEnv) (State demoEnv)
        (Start demoEnv) (Unpause demoEnv) (Pause demoEnv) (Provision demoEnv)
        (fun _ => Some (errNotExist "ol.sock"))
        (fun k => Z.of_nat (S k) * (20 * 10 ^ 9))
        (Channel demoEnv).

(** The handler after the block "get code if needed", or the error of
    [Pull]. *)
Definition afterPull (E : Env) (h : Handler) : oserror + Handler :=
  match lastPull h with
  | Some _ => inr h
  | None =>
      match Pull E (name h) with
      | inl e => inl e
      | inr (cd, ps) => inr (set_lastPull (Now E) cd ps h)
      end
  end.

(** The registry does not know the lambda; the factory cannot create. *)
Definition pullFailEnv : Env :=
  mkEnv (fun _ => inl (errOther "no such lambda")) (Now demoEnv) (MkdirAll demoEnv)
        (Create demoEnv) (State demoEnv) (Start demoEnv) (Unpause demoEnv) (Pause demoEnv)
        (Provision demoEnv) (Stat demoEnv) (Since demoEnv) (Channel demoEnv).

Definition createFailEnv : Env :=
  mkEnv (Pull demoEnv) (Now demoEnv) (MkdirAll demoEnv)
        (fun _ _ _ => inl (errOther "cannot create container"))
        (State demoEnv) (Start demoEnv) (Unpause demoEnv) (Pause demoEnv)
        (Provision demoEnv) (Stat demoEnv) (Since demoEnv) (Channel demoEnv).

(** Every non-nil map value points at an allocated handler carrying the
    key as its name. *)
Definition wfRegistry (r : Registry) : Prop :=
  forall k p, handlers (hset r) !! k = Some (Some p) ->
              exists h, heap r !! p = Some h /\ name h = k.

(** Any number of further [Get] calls that found the registry mutex free. *)
Definition Gets (join : list string -> string) (ns : list string) (r : Registry) : Registry :=
  foldl (fun r m => (getOrInsert join m r).2) r ns.

(** The registry as [NewHandlerSet] leaves it. *)
Definition emptyRegistry : Registry := mkRegistry demoSet [].

(** One handler, "f", with a live sandbox and no fork server: an orphan. *)
Definition orphan : Handler := set_sandbox demoSandbox (newHandler join_slash "f" "/w").
Definition orphanRegistry : Registry :=
  mkRegistry (set_handlers {["f" := Some 0%nat]} demoSet) [orphan].

(** The other goroutines leave the handlers alone. *)
Definition idle (k : nat) (hp : list Handler) : list Handler := hp.

(** The reaper goroutine as [go handlerSet.killOrphans()] starts it. *)
Definition freshReaper (g : Registry) : Reaper := mkReaper g [] [] 0 [].

(** Events that give the registry mutex back or clear a slot. *)
Definition releases_or_clears (e : REvent) : Prop :=
  e = EUnlock RegMu \/ exists n, e = ESetNil n.

(** Every map value is a pointer at an allocated handler. *)
Definition no_nil_slot (g : Registry) : Prop :=
  forall k v, handlers (hset g) !! k = Some v ->
              exists p, v = Some p /\ (p < length (heap g))%nat.

(** The other goroutines neither allocate nor free a handler: [Get] alone
    allocates, and nothing frees. *)
Definition keeps_allocation (others : nat -> list Handler -> list Handler) : Prop :=
  forall k hp, length (others k hp) = length hp.

(** The states that the registry and the reaper goroutine can come to.
    [NewHandlerSet] leaves an empty map; a [Get] that does not wait
    changes the registry; the operations on handlers change handlers,
    counters and the LRU, and neither the map nor the allocation; the
    reaper makes one more scan. *)
Inductive reachableR : Reaper -> Prop :=
| reachR_new (S : HandlerSet) :
    handlers S = ∅ -> reachableR (freshReaper (mkRegistry S []))
| reachR_Get (join : list string -> string) (n : string) (rp : Reaper)
             (p : nat) (g : Registry) :
    reachableR rp ->
    (Get join n (held rp) (reg rp)).1 = Returns (p, g) ->
    reachableR (mkReaper g (held rp) (deferred rp) (sleeps rp) (events rp))
| reachR_handlers (rp : Reaper) (g : Registry) :
    reachableR rp ->
    handlers (hset g) = handlers (hset (reg rp)) ->
    length (heap g) = length (heap (reg rp)) ->
    reachableR (mkReaper g (held rp) (deferred rp) (sleeps rp) (events rp))
| reachR_scan (others : nat -> list Handler -> list Handler) (fuel : nat) (rp : Reaper) :
    reachableR rp -> keeps_allocation others ->
    reachableR (scan others fuel rp).2.

(** The registry after [Get] of "f" on the new set, with the reaper not
    yet started, and the same after the reaper's first scan. *)
Definition oneHandlerReaper : Reaper :=
  freshReaper (getOrInsert join_slash "f" emptyRegistry).2.
Definition scannedReaper : Reaper := (scan idle 3 oneHandlerReaper).2.

(** ** More notions: handlers that have a sandbox *)

(** What [RunStart] does to a handler that has its code and a sandbox,
    read off the two branches [else if h.state == state.Paused] and
    [else]: the outcome and the state it leaves. *)
Definition resume (E : Env) (s : RS) (sbx : Sandbox)
  : outcome (option SandboxChannel * option error) * RS :=
  let hits := set_hhits (wrap64 (hhits (hs s) + 1)) (hs s) in
  let h' := set_runners (wrap64 (runners (hd s) + 1)) (set_state Running (hd s)) in
  let tail := [CLog (LogHits (hhits hits) (ihits hits) (misses hits));
               CChannel sbx; CUnlock] in
  if decide (state (hd s) = Paused) then
    match Unpause E sbx with
    | Some e =>
        (Done (None, Some (External e)),
         mkRS (hd s) hits
              (calls s ++ [CLock; CAtomicAdd Chhits; CUnpause sbx; CUnlock]))
    | None =>
        (Done (returned E sbx),
         mkRS h' (set_lru (lru_Remove (name (hd s)) (lru hits)) hits)
              (calls s ++ [CLock; CAtomicAdd Chhits; CUnpause sbx;
                           CLruRemove (name (hd s))] ++ tail))
    end
  else
    (Done (returned E sbx),
     mkRS h' hits (calls s ++ [CLock; CAtomicAdd Chhits] ++ tail)).

(** The calls by which [RunStart] brings a sandbox up: everything between
    [os.MkdirAll] and the readiness poll. *)
Definition is_boot_call (c : Call) : bool :=
  match c with
  | CMkdirAll _ | CCreate _ _ _ | CState _ | CStart _ | CProvision _ _ _
  | CStat _ | CSince => true
  | _ => false
  end.

(** The handler "f" after a first [RunStart] that timed out waiting for
    the marker. *)
Definition timedOutDemo : RS := (RunStart 5 slowEnv freshDemo).2.

(** A registry that only [Get] has worked on: no nil slot, as many
    handlers allocated as names mapped, and every name mapped to a handler
    as [Get] makes it for that name. *)
Definition only_gets (join : list string -> string) (wd : string) (r : Registry) : Prop :=
  workerDir (hset r) = wd /\
  length (heap r) = size (handlers (hset r)) /\
  forall k v, handlers (hset r) !! k = Some v ->
    exists p, v = Some p /\ heap r !! p = Some (newHandler join k wd).

(** The events of a reaper that only sleeps, locks, defers and unlocks a
    handler's mutex: it unlocks no registry mutex, clears no slot and
    starts no teardown. *)
Definition only_locks_and_sleeps (e : REvent) : bool :=
  match e with
  | ESleep _ | ELock _ | EDeferUnlock _ | EUnlock (HMu _) => true
  | _ => false
  end.

(** ** NewHandlerSet *)






(** * Properties *)

(** ** Arithmetic of the machine integers *)

Lemma wrap64_id (x : Z) : min_int <= x <= max_int -> wrap64 x = x.
Proof.
  unfold wrap64, min_int, max_int. intros H.
  rewrite Z.mod_small; lia.
Qed.

Lemma wrap64_max : wrap64 (max_int + 1) = min_int.
Proof. reflexivity. Qed.

(** ** The readiness loop *)

Lemma waitSock_eq (fuel : nat) (E : Env) (p : string) (k : nat) (s : RS) :
  waitSock fuel E p k s =
  ((pollOutcome fuel E k).1,
   mkRS (hd s) (hs s) (calls s ++ polls p (pollOutcome fuel E k).2)).
Proof.
  revert k s. induction fuel as [|fuel IH]; intros k s.
  - destruct s; cbn. unfold spin, polls. cbn. by rewrite app_nil_r.
  - cbn. unfold call, emit, bind, ret, throw. cbn.
    destruct (past_deadline (Since E k)); cbn.
    + unfold polls. cbn. by rewrite <- app_assoc.
    + destruct (IsNotExist (Stat E k)); cbn.
      * rewrite IH. cbn. unfold polls. cbn. by rewrite <- !app_assoc.
      * unfold polls. cbn. by rewrite <- app_assoc.
Qed.

Lemma pollOutcome_cases (fuel : nat) (E : Env) (k : nat) :
  (pollOutcome fuel E k).1 = Done tt \/
  (pollOutcome fuel E k).1 = Fail init_timeout \/
  (pollOutcome fuel E k).1 = Spin.
Proof.
  revert k. induction fuel as [|fuel IH]; intros k; cbn; [tauto|].
  destruct (past_deadline _); cbn; [tauto|].
  destruct (IsNotExist _); cbn; [apply IH | tauto].
Qed.

Lemma pollOutcome_count (fuel : nat) (E : Env) (k : nat) :
  ((pollOutcome fuel E k).2 <= fuel)%nat.
Proof.
  revert k. induction fuel as [|fuel IH]; intros k; cbn; [lia|].
  destruct (past_deadline _); cbn; [lia|].
  destruct (IsNotExist _); cbn; [|lia].
  specialize (IH (S k)). lia.
Qed.

Lemma pollOutcome_timeout (fuel : nat) (E : Env) (k : nat) :
  (pollOutcome fuel E k).1 = Fail init_timeout <->
  exists i, (i < fuel)%nat /\ past_deadline (Since E (k + i)) = true /\
            forall j, (j < i)%nat -> still_waiting E (k + j).
Proof.
  revert k. induction fuel as [|fuel IH]; intros k; cbn.
  - split; [done | intros (i & Hi & _); lia].
  - destruct (past_deadline (Since E k)) eqn:Hd; cbn.
    + split; [intros _ | done].
      exists 0%nat. rewrite Nat.add_0_r. split_and!; [lia | done | intros; lia].
    + destruct (IsNotExist (Stat E k)) eqn:Hn; cbn.
      * rewrite IH. split.
        -- intros (i & Hi & Hp & Hw). exists (S i).
           rewrite Nat.add_succ_r. split_and!; [lia | done |].
           intros [|j] Hj; rewrite ?Nat.add_0_r, ?Nat.add_succ_r;
             [done | apply (Hw j); lia].
        -- intros (i & Hi & Hp & Hw). destruct i as [|i].
           { rewrite Nat.add_0_r in Hp. congruence. }
           exists i. rewrite Nat.add_succ_r in Hp. split_and!; [lia | done |].
           intros j Hj. specialize (Hw (S j)). rewrite Nat.add_succ_r in Hw.
           apply Hw. lia.
      * split; [done|]. intros (i & Hi & Hp & Hw). destruct i as [|i].
        { rewrite Nat.add_0_r in Hp. congruence. }
        destruct (Hw 0%nat) as [_ Hw0]; [lia|]. rewrite Nat.add_0_r in Hw0. congruence.
Qed.

Lemma pollOutcome_ready (fuel : nat) (E : Env) (k : nat) :
  (pollOutcome fuel E k).1 = Done tt <->
  exists i, (i < fuel)%nat /\ past_deadline (Since E (k + i)) = false /\
            IsNotExist (Stat E (k + i)) = false /\
            forall j, (j < i)%nat -> still_waiting E (k + j).
Proof.
  revert k. induction fuel as [|fuel IH]; intros k; cbn.
  - split; [done | intros (i & Hi & _); lia].
  - destruct (past_deadline (Since E k)) eqn:Hd; cbn.
    + split; [done|]. intros (i & Hi & Hp & Hs & Hw). destruct i as [|i].
      { rewrite Nat.add_0_r in Hp. congruence. }
      destruct (Hw 0%nat) as [Hw0 _]; [lia|]. rewrite Nat.add_0_r in Hw0. congruence.
    + destruct (IsNotExist (Stat E k)) eqn:Hn; cbn.
      * rewrite IH. split.
        -- intros (i & Hi & Hp & Hs & Hw). exists (S i).
           rewrite Nat.add_succ_r. split_and!; [lia | done | done |].
           intros [|j] Hj; rewrite ?Nat.add_0_r, ?Nat.add_succ_r;
             [done | apply (Hw j); lia].
        -- intros (i & Hi & Hp & Hs & Hw). destruct i as [|i].
           { rewrite Nat.add_0_r in Hs. congruence. }
           exists i. rewrite Nat.add_succ_r in Hp, Hs. split_and!; [lia | done | done |].
           intros j Hj. specialize (Hw (S j)). rewrite Nat.add_succ_r in Hw.
           apply Hw. lia.
      * split; [intros _ | done].
        exists 0%nat. rewrite Nat.add_0_r. split_and!; [lia | done | done | intros; lia].
Qed.

(** ** Case analysis of RunStart and RunFinish *)

Ltac unfold_m :=
  unfold RunStart, RunFinish, nuke, locked, RunStart_body, createSandbox, lruRemove,
    lruAdd, atomicAdd, check, call, emit, modH, modS, getH, getS, throw, panic, spin,
    bind, ret in *.

(** Split on the innermost scrutinee first, so that every split is on an
    answer of the oracle or on a field of the handler. *)
Ltac split_match :=
  match goal with
  | |- context [waitSock ?f ?E ?p ?k ?s] => rewrite (waitSock_eq f E p k s)
  | |- context [match ?x with _ => _ end] =>
      lazymatch x with
      | context [match _ with _ => _ end] => fail
      | _ => destruct x eqn:?
      end
  end.

Ltac run_cases := unfold_m; cbn; repeat (split_match; cbn in *; simplify_eq).

Ltac calls_norm :=
  unfold newCalls; cbn; rewrite <- ?app_assoc; rewrite ?drop_app_length; cbn.

Lemma RunStart_cases (fuel : nat) (E : Env) (s : RS) :
  name (hd (RunStart fuel E s).2) = name (hd s) /\
  (counted_in E s (RunStart fuel E s) \/ turned_away s (RunStart fuel E s)).
Proof.
  destruct s as [h S cs].
  run_cases.
  all: try (destruct (pollOutcome_cases fuel E 0) as [Hp|[Hp|Hp]];
            rewrite Hp in *; cbn in * ).
  all: split; [done|].
  all: unfold counted_in, turned_away, returned; cbn.
  all: first
    [ solve [left; eexists; split_and!; first [reflexivity | congruence | done]]
    | solve [right; split_and!;
             first [ done | congruence | by eauto | intros; congruence
                   | intros; right; split; congruence
                   | intros; left; split; congruence ]] ].
Qed.

(** A successful return is an admission. *)
Lemma RunStart_ok_counted (fuel : nat) (E : Env) (s : RS) (ch : option SandboxChannel) :
  (RunStart fuel E s).1 = Done (ch, None) -> counted_in E s (RunStart fuel E s).
Proof.
  intros Hok. destruct (RunStart_cases fuel E s) as [_ [Ha|Hr]]; [done|].
  destruct Hr as [[[e He]|He] _]; congruence.
Qed.

(** [RunFinish], case by case. *)
Lemma RunFinish_cases (E : Env) (s : RS) :
  let r := RunFinish E s in
  let n := wrap64 (runners (hd s) - 1) in
  name (hd r.2) = name (hd s) /\ lastPull (hd r.2) = lastPull (hd s) /\
  sandbox (hd r.2) = sandbox (hd s) /\ runners (hd r.2) = n /\
  if n =? 0 then
    match sandbox (hd s) with
    | None => r.1 = Panic /\ state (hd r.2) = state (hd s)
    | Some _ => r.1 = Done tt /\ state (hd r.2) = Paused
    end
  else r.1 = Done tt /\ state (hd r.2) = state (hd s).
Proof.
  destruct s as [h S cs]. run_cases; done.
Qed.

(** ** Reachable handler states *)

Lemma RunStart_wfH (fuel : nat) (E : Env) (s : RS) :
  wfH (hd s) -> wfH (hd (RunStart fuel E s).2).
Proof.
  intros [H1 H2]. destruct (RunStart_cases fuel E s) as [_ [Ha|Hr]].
  - destruct Ha as (sbx & Hs & _ & _ & _ & Hl & _). split; congruence.
  - destruct Hr as (_ & _ & Hl & Hk & Hn). split.
    + intros Hnone. pose proof (Hl Hnone) as Heq. rewrite Heq in Hnone |- *. auto.
    + intros Hnone. destruct (sandbox (hd s)) eqn:Hsb.
      * destruct (lastPull (hd s)) eqn:Hlp; [|by specialize (H1 eq_refl)].
        rewrite Hk in Hnone by done. congruence.
      * destruct (Hn eq_refl) as [[_ ->]|[? _]]; [auto | done].
Qed.

Lemma RunFinish_wfH (E : Env) (s : RS) : wfH (hd s) -> wfH (hd (RunFinish E s).2).
Proof.
  intros [H1 H2]. destruct (RunFinish_cases E s) as (_ & Hl & Hs & _ & Hc).
  split; [rewrite Hl, Hs; done|].
  rewrite Hs. intros Hnone. rewrite Hnone in Hc.
  destruct (_ =? _); destruct Hc as [_ ->]; auto.
Qed.

Lemma nuke_hd (E : Env) (s : RS) : hd (nuke E s).2 = hd s.
Proof. destruct s as [h S cs]. run_cases; done. Qed.

Lemma reachable_wfH (s : RS) : reachable s -> wfH (hd s).
Proof.
  induction 1 as [join n wd S cs|fuel E s _ IH|E s _ IH|E s _ IH|s S cs _ IH].
  - split; done.
  - by apply RunStart_wfH.
  - by apply RunFinish_wfH.
  - by rewrite nuke_hd.
  - done.
Qed.

(** ** Sample data *)

(** ** RunStart on a paused handler *)

Ltac not_in_calls :=
  let Hin := fresh "Hin" in
  intros; intros Hin;
  repeat (apply elem_of_cons in Hin as [Hin|Hin]; [discriminate|]);
  by apply elem_of_nil in Hin.

(** C2. For a reachable handler whose sandbox exists and whose state is
    Paused, RunStart asks the registry for nothing and creates no sandbox;
    it adds one to the handler-hit counter and unpauses the sandbox it
    has; when the unpause succeeds it removes the handler from the LRU and
    only then counts the request in and returns the channel; when the
    unpause fails it returns that error with the handler untouched. *)
Theorem RunStart_paused_resumes (fuel : nat) (E : Env) (s : RS) (sbx : Sandbox) :
  reachable s -> sandbox (hd s) = Some sbx -> state (hd s) = Paused ->
  let r := RunStart fuel E s in
  let new := newCalls s r.2 in
  (forall n, CPull n ∉ new) /\ (forall a b c, CCreate a b c ∉ new) /\
  sandbox (hd r.2) = Some sbx /\ lastPull (hd r.2) = lastPull (hd s) /\
  hhits (hs r.2) = wrap64 (hhits (hs s) + 1) /\
  match Unpause E sbx with
  | Some e =>
      r.1 = Done (None, Some (External e)) /\
      new = [CLock; CAtomicAdd Chhits; CUnpause sbx; CUnlock] /\
      hd r.2 = hd s /\ lru (hs r.2) = lru (hs s)
  | None =>
      r.1 = Done (returned E sbx) /\
      new = [CLock; CAtomicAdd Chhits; CUnpause sbx; CLruRemove (name (hd s));
             CLog (LogHits (wrap64 (hhits (hs s) + 1)) (ihits (hs s)) (misses (hs s)));
             CChannel sbx; CUnlock] /\
      lru (hs r.2) = lru_Remove (name (hd s)) (lru (hs s)) /\
      state (hd r.2) = Running /\
      runners (hd r.2) = wrap64 (runners (hd s) + 1)
  end.
Proof.
  intros Hreach Hsb Hst.
  destruct (reachable_wfH s Hreach) as [Hwf _].
  destruct (lastPull (hd s)) as [t|] eqn:Hlp; [|specialize (Hwf eq_refl); congruence].
  clear Hreach Hwf. destruct s as [h S cs]. cbn in *.
  unfold_m. cbn. rewrite Hlp. cbn. rewrite Hsb. cbn.
  rewrite decide_True by done. cbn.
  destruct (Unpause E sbx) as [e|]; cbn.
  - calls_norm. split_and!; try done; not_in_calls.
  - rewrite Hsb. calls_norm. split_and!; try done; not_in_calls.
Qed.

Lemma RunStart_paused_resumes_witness :
  reachable pausedDemo /\ sandbox (hd pausedDemo) = Some demoSandbox /\
  state (hd pausedDemo) = Paused /\
  hhits (hs (RunStart 5 demoEnv pausedDemo).2) = 1 /\
  members (lru (hs pausedDemo)) = [("f", 0)] /\
  members (lru (hs (RunStart 5 demoEnv pausedDemo).2)) = [].
Proof.
  assert (Hr : reachable pausedDemo)
    by (apply reach_RunFinish, reach_RunStart, reach_new).
  pose proof (RunStart_paused_resumes 5 demoEnv pausedDemo demoSandbox
                Hr eq_refl eq_refl) as H.
  split_and!; [exact Hr | reflexivity | reflexivity | apply H | reflexivity | reflexivity].
Defined.

(** ** RunFinish *)

Lemma lru_evict_keeps_newest (cap : Z) (l : list (string * Z)) (x : string * Z) :
  x.2 <= cap -> exists l', lru_evict cap (l ++ [x]) = l' ++ [x].
Proof.
  intros Hx. induction l as [|y l IH]; cbn.
  - destruct (cap <? x.2 + 0) eqn:Hc; [lia | by exists []].
  - destruct (cap <? _); [done | by exists (y :: l)].
Qed.

(** In the LRU modelled from the spec, a handler that fits the budget by
    itself is the first, most recently paused, member after [Add]. *)
Lemma lru_Add_newest (n : string) (u : Z) (c : HandlerLRU) :
  u <= capacity c -> head (members (lru_Add n u c)) = Some (n, u).
Proof.
  intros Hu. unfold lru_Add, lru_insert. cbn [members capacity rev].
  destruct (lru_evict_keeps_newest (capacity c) (rev (lru_remove n (members c))) (n, u) Hu)
    as [l' Hl'].
  rewrite Hl'. by rewrite rev_app_distr.
Qed.

(** C4. RunFinish takes one off runners.  When that leaves zero it calls
    Pause on the sandbox, logs a failure of that call without returning
    or raising it, sets the state to Paused and adds the handler to the
    LRU, where it is the most recently paused member; when runners is not
    zero afterwards nothing but the count changes. *)
Theorem RunFinish_pauses_last (E : Env) (s : RS) (sbx : Sandbox) :
  sandbox (hd s) = Some sbx ->
  let r := RunFinish E s in
  let n := wrap64 (runners (hd s) - 1) in
  r.1 = Done tt /\ runners (hd r.2) = n /\
  if n =? 0 then
    hd r.2 = set_state Paused (set_runners 0 (hd s)) /\
    newCalls s r.2 =
      [CLock; CPause sbx] ++
      match Pause E sbx with
      | Some e => [CLog (LogPauseFailed (name (hd s)) e)]
      | None => []
      end ++ [CLruAdd (name (hd s)); CUnlock] /\
    lru (hs r.2) = lru_Add (name (hd s)) (usage (hd s)) (lru (hs s)) /\
    (usage (hd s) <= capacity (lru (hs s)) ->
     head (members (lru (hs r.2))) = Some (name (hd s), usage (hd s)))
  else
    hd r.2 = set_runners n (hd s) /\ hs r.2 = hs s /\
    newCalls s r.2 = [CLock; CUnlock].
Proof.
  intros Hsb. destruct s as [h S cs]. cbn in *.
  unfold_m. cbn.
  destruct (wrap64 (runners h - 1) =? 0) eqn:Hz; cbn.
  - rewrite Hsb. cbn. apply Z.eqb_eq in Hz.
    destruct (Pause E sbx) as [e|]; cbn; calls_norm; rewrite Hz.
    all: split_and!; try done; apply lru_Add_newest.
  - calls_norm. done.
Qed.

Lemma RunFinish_pauses_last_witness :
  sandbox (hd runningDemo) = Some demoSandbox /\
  state (hd (RunFinish demoEnv runningDemo).2) = Paused /\
  members (lru (hs (RunFinish demoEnv runningDemo).2)) = [("f", 0)].
Proof.
  pose proof (RunFinish_pauses_last demoEnv runningDemo demoSandbox eq_refl) as H.
  cbn zeta in H. destruct H as (_ & _ & H).
  change (wrap64 (runners (hd runningDemo) - 1) =? 0) with true in H.
  destruct H as (Hh & _ & Hl & _).
  split_and!; [reflexivity | by rewrite Hh | by rewrite Hl].
Defined.

(** ** What a successful RunStart guarantees *)

(** C5. When RunStart returns without an error (the handler having a
    count of runners that is not negative and not the largest [int]), the
    handler's state is Running, runners is at least one, and the value
    returned is what [Channel] of the handler's sandbox answered. *)
Theorem RunStart_success_guarantee (fuel : nat) (E : Env) (s : RS)
    (ch : option SandboxChannel) :
  0 <= runners (hd s) < max_int ->
  (RunStart fuel E s).1 = Done (ch, None) ->
  state (hd (RunStart fuel E s).2) = Running /\
  1 <= runners (hd (RunStart fuel E s).2) /\
  runners (hd (RunStart fuel E s).2) = runners (hd s) + 1 /\
  exists sbx, sandbox (hd (RunStart fuel E s).2) = Some sbx /\
              Channel E sbx = (ch, None).
Proof.
  intros Hr Hok.
  destruct (RunStart_ok_counted fuel E s ch Hok) as (sbx & Hs & Hres & Hst & Hrun & _).
  rewrite wrap64_id in Hrun by (unfold min_int, max_int in *; lia).
  split_and!; [done | lia | done |].
  exists sbx. split; [done|].
  rewrite Hok in Hres. unfold returned in Hres.
  destruct (Channel E sbx) as [c [e|]]; cbn in Hres; congruence.
Qed.

Lemma RunStart_success_guarantee_witness :
  (RunStart 5 demoEnv freshDemo).1 = Done (Some 11%nat, None) /\
  state (hd (RunStart 5 demoEnv freshDemo).2) = Running /\
  1 <= runners (hd (RunStart 5 demoEnv freshDemo).2).
Proof.
  assert (Hr : 0 <= runners (hd freshDemo) < max_int) by (cbn; unfold max_int; lia).
  pose proof (RunStart_success_guarantee 5 demoEnv freshDemo (Some 11%nat) Hr eq_refl)
    as (H1 & H2 & _).
  split_and!; [reflexivity | exact H1 | exact H2].
Defined.

(** ** The runner count over a history of operations *)

Lemma history_inv (ops : list Op) (open : nat) (s : RS) :
  Z.of_nat open <= runners (hd s) ->
  runners (hd s) + Z.of_nat (length ops) <= max_int ->
  (0 < runners (hd s) -> state (hd s) = Running /\ sandbox (hd s) <> None) ->
  (lastPull (hd s) = None -> sandbox (hd s) = None) ->
  paired open ops s = true ->
  Forall runners_inv (history ops s).
Proof.
  revert open s. induction ops as [|op ops IH]; intros open s Hopen Hmax Hrun Hlp Hp.
  - cbn. repeat constructor; [lia | intros H; by apply Hrun].
  - assert (Hs : runners_inv s) by (split; [lia | intros H; by apply Hrun]).
    cbn [history]. constructor; [done|]. cbn [length] in Hmax.
    destruct op as [fuel E|E].
    + cbn [paired] in Hp.
      destruct (RunStart_cases fuel E s) as [_ [Ha|Hr]].
      * destruct Ha as (sbx & Hsb & Hres & Hst & Hn & Hl & _).
        rewrite wrap64_id in Hn by (unfold min_int, max_int in *; lia).
        destruct (RunStart fuel E s) as [o s'] eqn:HRS. cbn in *. subst o.
        destruct (returned E sbx) as [c [e|]].
        -- apply (IH open); try done; try lia;
             first [intros _; split; congruence | intros; congruence].
        -- apply (IH (S open)); try done; try lia;
             first [intros _; split; congruence | intros; congruence].
      * destruct Hr as (Ho & Hn & Hl & Hk & Hnone).
        destruct (RunStart fuel E s) as [o s'] eqn:HRS. cbn in *.
        assert (Hrun' : 0 < runners (hd s') ->
                        state (hd s') = Running /\ sandbox (hd s') <> None).
        { rewrite Hn. intros Hpos. destruct (Hrun Hpos) as [Hst Hsb].
          rewrite Hk; [done | done |]. intros Hx. by apply Hlp in Hx. }
        assert (Hlp' : lastPull (hd s') = None -> sandbox (hd s') = None).
        { intros Hx. rewrite (Hl Hx). apply Hlp. by rewrite <- (Hl Hx). }
        destruct Ho as [[e ->]| ->].
        -- apply (IH open); try done; try lia.
        -- repeat constructor; [lia | intros H; apply Hrun'; lia].
    + cbn [paired] in Hp. destruct open as [|open]; [done|].
      pose proof (RunFinish_cases E s) as Hc. cbn zeta in Hc.
      destruct Hc as (_ & Hl & Hsb & Hn & Hc).
      rewrite wrap64_id in Hn, Hc by (unfold min_int, max_int in *; lia).
      destruct (Hrun ltac:(lia)) as [Hst Hsome].
      destruct (RunFinish E s) as [o s'] eqn:HRF. cbn in *.
      destruct (runners (hd s) - 1 =? 0) eqn:Hz.
      * apply Z.eqb_eq in Hz. destruct (sandbox (hd s)); [|done].
        destruct Hc as [-> Hp']. apply (IH open); try done; try lia.
        rewrite Hl. intros Hx. by apply Hlp in Hx.
      * apply Z.eqb_neq in Hz. destruct Hc as [-> Hst'].
        apply (IH open); try done; try lia.
        -- intros _. split; congruence.
        -- rewrite Hl, Hsb. done.
Qed.

(** C3. Take a handler as [Get] makes it and any sequence of RunStart
    and RunFinish calls, fewer than the largest [int], in which every
    RunFinish follows a successful RunStart of its own.  In every state
    the handler passes through, runners is not negative, and a positive
    runners goes with the state Running. *)
Theorem runners_invariant (join : list string -> string) (n wd : string)
    (S : HandlerSet) (cs : list Call) (ops : list Op) :
  Z.of_nat (length ops) <= max_int ->
  paired 0 ops (mkRS (newHandler join n wd) S cs) = true ->
  Forall (fun s => 0 <= runners (hd s) /\ (0 < runners (hd s) -> state (hd s) = Running))
         (history ops (mkRS (newHandler join n wd) S cs)).
Proof.
  intros Hlen Hp. apply (history_inv ops 0); cbn; try done; lia.
Qed.

Lemma runners_invariant_witness :
  paired 0 demoOps freshDemo = true /\
  map (fun s => (runners (hd s), state (hd s))) (history demoOps freshDemo) =
    [(0, Unitialized); (1, Running); (2, Running); (1, Running); (0, Paused); (1, Running)] /\
  Forall (fun s => 0 <= runners (hd s) /\ (0 < runners (hd s) -> state (hd s) = Running))
         (history demoOps freshDemo).
Proof.
  split_and!; [reflexivity | reflexivity |].
  apply (runners_invariant join_slash "f" "/w" demoSet [] demoOps).
  - cbn. unfold max_int. lia.
  - reflexivity.
Defined.

(** ** The readiness poll inside RunStart *)

Lemma RunStart_at_poll (fuel : nat) (E : Env) (s : RS) :
  (reaches_poll E s ->
   match (pollOutcome fuel E 0).1 with
   | Done _ => counted_in E s (RunStart fuel E s)
   | Fail e => (RunStart fuel E s).1 = Done (None, Some e)
   | _ => (RunStart fuel E s).1 = Spin
   end) /\
  (~ reaches_poll E s -> (RunStart fuel E s).1 <> Done (None, Some init_timeout)).
Proof.
  unfold reaches_poll. destruct s as [h S cs].
  run_cases.
  all: split; [intros Hreach; try discriminate | intros Hreach; try done].
  all: try (destruct (pollOutcome_cases fuel E 0) as [Hp|[Hp|Hp]];
            rewrite Hp in *; cbn in * ).
  all: try done.
  all: try (unfold counted_in, returned; cbn; eexists; split_and!;
            first [reflexivity | congruence | done]).
  all: try (destruct (Channel E _) as [? [?|]]; cbn; discriminate).
Qed.

Lemma reaches_poll_dec (E : Env) (s : RS) : reaches_poll E s \/ ~ reaches_poll E s.
Proof.
  unfold reaches_poll. destruct (RunStart 0 E s).1; (by left) || (by right).
Qed.

(** C6. What the code does.  [os.Stat] fails at the first poll with an
    error other than not-exist, one second after the start.  The creation
    path has reached the poll, [os.IsNotExist(err)] is false, and the loop
    ends as if the marker were there: RunStart returns the channel and not
    the initialization-timeout error, though no poll, then or later, finds
    the marker.  So "the timeout error exactly when the marker has not
    appeared in time" does not hold of this run. *)
Lemma init_timeout_iff_marker_absent_fails :
  reaches_poll deniedEnv freshDemo /\
  ~ ((RunStart 5 deniedEnv freshDemo).1 = Done (None, Some init_timeout) <->
     ~ marker_seen_in_time deniedEnv).
Proof.
  split; [reflexivity|].
  intros [_ H].
  assert (Hno : ~ marker_seen_in_time deniedEnv) by (intros (k & Hk & _); discriminate).
  specialize (H Hno). vm_compute in H. discriminate.
Qed.

(** The readiness poll as the code has it.  RunStart returns the
    initialization-timeout error exactly when it reaches the poll and some
    poll's deadline check finds more than 45 s gone while every earlier
    poll, inside the bound, got a not-exist error.  When a poll inside the
    bound gets anything else from [os.Stat] after such earlier polls,
    RunStart goes on to count the request in and to return the channel;
    for an answer without error that is the marker found, for an error
    other than not-exist it is the run shown above. *)
Theorem RunStart_init_timeout (fuel : nat) (E : Env) (s : RS) :
  ((RunStart fuel E s).1 = Done (None, Some init_timeout) <->
   reaches_poll E s /\
   exists k, (k < fuel)%nat /\ past_deadline (Since E k) = true /\
             forall j, (j < k)%nat -> still_waiting E j) /\
  (reaches_poll E s ->
   forall k, (k < fuel)%nat ->
     past_deadline (Since E k) = false -> IsNotExist (Stat E k) = false ->
     (forall j, (j < k)%nat -> still_waiting E j) ->
     counted_in E s (RunStart fuel E s) /\
     (RunStart fuel E s).1 <> Done (None, Some init_timeout)).
Proof.
  destruct (RunStart_at_poll fuel E s) as [Hin Hout].
  pose proof (pollOutcome_timeout fuel E 0) as Ht.
  pose proof (pollOutcome_ready fuel E 0) as Hr.
  cbn [Nat.add] in Ht, Hr.
  split; [split|].
  - intros Hres.
    destruct (reaches_poll_dec E s) as [Hreach|Hno]; [|by apply Hout in Hno].
    split; [done|]. apply Ht. specialize (Hin Hreach).
    destruct (pollOutcome_cases fuel E 0) as [Hp|[Hp|Hp]]; rewrite Hp in Hin; [|done|congruence].
    destruct Hin as (sbx & _ & Hd & _). rewrite Hres in Hd. unfold returned in Hd.
    destruct (Channel E sbx) as [? [?|]]; cbn in Hd; discriminate.
  - intros [Hreach Hk]. apply Ht in Hk. specialize (Hin Hreach). by rewrite Hk in Hin.
  - intros Hreach k Hk Hd Hs Hw.
    assert (Hp : (pollOutcome fuel E 0).1 = Done tt) by (apply Hr; eauto).
    specialize (Hin Hreach). rewrite Hp in Hin. split; [done|].
    destruct Hin as (sbx & _ & Hres & _). rewrite Hres. unfold returned.
    destruct (Channel E sbx) as [? [?|]]; cbn; discriminate.
Qed.

Lemma RunStart_init_timeout_witness :
  reaches_poll demoEnv freshDemo /\
  (RunStart 5 demoEnv freshDemo).1 <> Done (None, Some init_timeout) /\
  reaches_poll slowEnv freshDemo /\
  (RunStart 5 slowEnv freshDemo).1 = Done (None, Some init_timeout).
Proof.
  assert (Hreach : reaches_poll demoEnv freshDemo) by reflexivity.
  assert (Hslow : reaches_poll slowEnv freshDemo) by reflexivity.
  destruct (RunStart_init_timeout 5 demoEnv freshDemo) as [_ Hready].
  destruct (RunStart_init_timeout 5 slowEnv freshDemo) as [[_ Hlate] _].
  split_and!; [exact Hreach | | exact Hslow |].
  - apply (Hready Hreach 2%nat); [lia | reflexivity | reflexivity |].
    intros [|[|j]] Hj; [split; reflexivity | split; reflexivity | lia].
  - apply Hlate. split; [exact Hslow|].
    exists 2%nat. split_and!; [lia | reflexivity |].
    intros [|[|j]] Hj; [split; reflexivity | split; reflexivity | lia].
Defined.

(** C9. What the code does: the readiness loop makes nothing but
    [os.Stat] and [time.Since] calls, one pair per iteration and the next
    pair straight after; no sleep separates two polls.  (The first thing
    the loop does is a [Stat], so neither test of the first iteration sees
    an error value from before the loop.)  On the sample run the marker is
    absent twice, and the three polls follow each other directly. *)
Theorem waitSock_polls_back_to_back :
  (forall fuel E p k s,
      exists n, (n <= fuel)%nat /\ (0 < fuel -> 0 < n)%nat /\
                newCalls s (waitSock fuel E p k s).2 = polls p n /\
                forall ms, CSleep ms ∉ polls p n) /\
  newCalls freshDemo (RunStart 5 demoEnv freshDemo).2 =
    [CLock; CPull "f"; CNow; CMkdirAll "/w/handlers/f/sandbox";
     CCreate "/registry/f" "/w/handlers/f/sandbox" "mirror";
     CState demoSandbox; CStart demoSandbox;
     CProvision demoSandbox "/w/handlers/f/sandbox" ["numpy"];
     CAtomicAdd Cihits; CNow;
     CStat "/w/handlers/f/sandbox/ol.sock"; CSince;
     CStat "/w/handlers/f/sandbox/ol.sock"; CSince;
     CStat "/w/handlers/f/sandbox/ol.sock"; CSince;
     CLog (LogHits 0 1 0); CChannel demoSandbox; CUnlock].
Proof.
  split; [|reflexivity].
  intros fuel E p k s. exists (pollOutcome fuel E k).2.
  rewrite waitSock_eq. destruct s as [h S cs]. calls_norm.
  split_and!; [apply pollOutcome_count | | done |].
  - destruct fuel as [|fuel]; [lia|]. intros _. cbn.
    destruct (past_deadline _); cbn; [lia|]. destruct (IsNotExist _); cbn; lia.
  - intros ms. generalize (pollOutcome fuel E k).2. intros n.
    unfold polls. induction n as [|n IH]; cbn.
    + apply not_elem_of_nil.
    + intros Hin. apply elem_of_cons in Hin as [Hin|Hin]; [discriminate|].
      apply elem_of_cons in Hin as [Hin|Hin]; [discriminate|]. by apply IH.
Qed.

(** ** Failures before a sandbox exists *)

Lemma RunStart_begins_with_Pull (fuel : nat) (E : Env) (s : RS) :
  lastPull (hd s) = None ->
  exists rest, newCalls s (RunStart fuel E s).2 = CLock :: CPull (name (hd s)) :: rest.
Proof.
  intros Hlp. destruct s as [h S cs]. cbn in Hlp.
  unfold_m. cbn. rewrite Hlp. cbn.
  repeat (split_match; cbn in *; simplify_eq).
  all: calls_norm; eexists; reflexivity.
Qed.

Lemma RunStart_begins_with_MkdirAll (fuel : nat) (E : Env) (s : RS) (t : Z) :
  lastPull (hd s) = Some t -> sandbox (hd s) = None ->
  exists rest,
    newCalls s (RunStart fuel E s).2 = CLock :: CMkdirAll (sandboxDir (hd s)) :: rest.
Proof.
  intros Hlp Hsb. destruct s as [h S cs]. cbn in Hlp, Hsb.
  unfold_m. cbn. rewrite Hlp. cbn. rewrite Hsb. cbn.
  repeat (split_match; cbn in *; simplify_eq).
  all: calls_norm; eexists; reflexivity.
Qed.

(** C8. On a reachable handler: when [Pull] fails, RunStart returns that
    error, has called neither [MkdirAll] nor [Create], and leaves the
    handler as it was, [lastPull] unset.  When, with the code fetched and
    no sandbox yet, [MkdirAll] or [Create] fails, RunStart returns that
    error and the handler still has no sandbox and the state
    Uninitialized.  In each case the next RunStart starts over at the step
    that failed. *)
Theorem RunStart_early_failures (fuel : nat) (E : Env) (s : RS) :
  reachable s ->
  let r := RunStart fuel E s in
  (forall e, lastPull (hd s) = None -> Pull E (name (hd s)) = inl e ->
     r.1 = Done (None, Some (External e)) /\
     newCalls s r.2 = [CLock; CPull (name (hd s)); CUnlock] /\
     hd r.2 = hd s /\ sandbox (hd r.2) = None /\ lastPull (hd r.2) = None /\
     forall fuel' E', exists rest,
       newCalls r.2 (RunStart fuel' E' r.2).2 = CLock :: CPull (name (hd s)) :: rest) /\
  (forall h1 e, afterPull E (hd s) = inr h1 -> sandbox (hd s) = None ->
     MkdirAll E (sandboxDir h1) = Some e \/
     (MkdirAll E (sandboxDir h1) = None /\
      Create E (codeDir h1) (sandboxDir h1) (pipMirror (hs s)) = inl e) ->
     r.1 = Done (None, Some (External e)) /\
     hd r.2 = h1 /\ sandbox (hd r.2) = None /\ state (hd r.2) = Unitialized /\
     (forall x, CState x ∉ newCalls s r.2) /\
     forall fuel' E', exists rest,
       newCalls r.2 (RunStart fuel' E' r.2).2 =
         CLock :: CMkdirAll (sandboxDir (hd s)) :: rest).
Proof.
  intros Hreach r. destruct (reachable_wfH s Hreach) as [Hwf1 Hwf2]. split.
  - intros e Hlp Hpull.
    assert (Hr : r = (Done (None, Some (External e)),
                      mkRS (hd s) (hs s) (calls s ++ [CLock; CPull (name (hd s)); CUnlock]))).
    { subst r. destruct s as [h S cs]. cbn in *. unfold_m. cbn. rewrite Hlp. cbn.
      rewrite Hpull. cbn. by rewrite <- !app_assoc. }
    rewrite Hr. cbn [fst snd hd]. split_and!; try done.
    + destruct s; by calls_norm.
    + by apply Hwf1.
    + intros fuel' E'.
      destruct (RunStart_begins_with_Pull fuel' E'
                  (mkRS (hd s) (hs s) (calls s ++ [CLock; CPull (name (hd s)); CUnlock])) Hlp)
        as [rest Hrest].
      by exists rest.
  - intros h1 e Hafter Hsb Hfail.
    assert (Hh1 : sandbox h1 = None /\ state h1 = state (hd s) /\
                  sandboxDir h1 = sandboxDir (hd s) /\ exists t, lastPull h1 = Some t).
    { unfold afterPull in Hafter. destruct (lastPull (hd s)) eqn:Hlp.
      - simplify_eq. eauto.
      - destruct (Pull E (name (hd s))) as [?|[cd ps]]; simplify_eq. cbn. eauto. }
    destruct Hh1 as (Hsb1 & Hst1 & Hdir1 & t & Hlp1).
    assert (Hr : r.1 = Done (None, Some (External e)) /\ hd r.2 = h1 /\
                 forall x, CState x ∉ newCalls s r.2).
    { subst r. destruct s as [h S cs]. cbn in *. unfold afterPull in Hafter.
      unfold_m. cbn.
      destruct (lastPull h) eqn:Hlp; cbn.
      - simplify_eq. rewrite Hsb. cbn.
        destruct Hfail as [Hm|[Hm Hc]]; rewrite Hm; cbn; [|rewrite Hc; cbn];
          calls_norm; split_and!; try done; not_in_calls.
      - destruct (Pull E (name h)) as [?|[cd ps]] eqn:Hpull; simplify_eq. cbn in *.
        rewrite Hsb. cbn.
        destruct Hfail as [Hm|[Hm Hc]]; rewrite Hm; cbn; [|rewrite Hc; cbn];
          calls_norm; split_and!; try done; not_in_calls. }
    destruct Hr as (Hres & Hhd & Hcalls).
    split_and!; try done.
    + by rewrite Hhd.
    + rewrite Hhd, Hst1. by apply Hwf2.
    + intros fuel' E'. rewrite <- Hdir1, <- Hhd.
      apply (RunStart_begins_with_MkdirAll fuel' E' r.2 t); by rewrite Hhd.
Qed.

Lemma RunStart_early_failures_witness :
  reachable freshDemo /\
  (RunStart 5 pullFailEnv freshDemo).1 =
    Done (None, Some (External (errOther "no such lambda"))) /\
  lastPull (hd (RunStart 5 pullFailEnv freshDemo).2) = None /\
  (RunStart 5 createFailEnv freshDemo).1 =
    Done (None, Some (External (errOther "cannot create container"))) /\
  state (hd (RunStart 5 createFailEnv freshDemo).2) = Unitialized /\
  sandbox (hd (RunStart 5 createFailEnv freshDemo).2) = None /\
  (RunStart 5 demoEnv (RunStart 5 createFailEnv freshDemo).2).1 = Done (Some 11%nat, None).
Proof.
  assert (Hr : reachable freshDemo) by apply reach_new.
  destruct (RunStart_early_failures 5 pullFailEnv freshDemo Hr) as [Hpull _].
  destruct (RunStart_early_failures 5 createFailEnv freshDemo Hr) as [_ Hcreate].
  destruct (Hpull (errOther "no such lambda") eq_refl eq_refl) as (H1 & _ & _ & _ & H2 & _).
  destruct (Hcreate (set_lastPull 1000 "/registry/f" ["numpy"] (hd freshDemo))
                    (errOther "cannot create container") eq_refl eq_refl
                    (or_intror (conj eq_refl eq_refl)))
    as (H3 & _ & H4 & H5 & _).
  split_and!; [exact Hr | exact H1 | exact H2 | exact H3 | exact H5 | exact H4 | reflexivity].
Defined.

(** ** HandlerSet.Get with the registry mutex free *)

Lemma getOrInsert_keeps_entry (join : list string -> string) (m n : string) (p : nat)
    (r : Registry) :
  handlers (hset r) !! n = Some (Some p) ->
  handlers (hset (getOrInsert join m r).2) !! n = Some (Some p).
Proof.
  intros Hn. unfold getOrInsert.
  destruct (handlers (hset r) !! m) as [[q|]|] eqn:Hm; cbn; try done.
  all: rewrite lookup_insert_ne; [done | congruence].
Qed.

Lemma Gets_keeps_entry (join : list string -> string) (ns : list string) (n : string)
    (p : nat) (r : Registry) :
  handlers (hset r) !! n = Some (Some p) ->
  handlers (hset (Gets join ns r)) !! n = Some (Some p).
Proof.
  revert r. induction ns as [|m ns IH]; intros r Hn; [done|].
  cbn. apply IH. by apply getOrInsert_keeps_entry.
Qed.

Lemma getOrInsert_wfRegistry (join : list string -> string) (n : string) (r : Registry) :
  wfRegistry r -> wfRegistry (getOrInsert join n r).2.
Proof.
  intros Hwf. unfold getOrInsert.
  destruct (handlers (hset r) !! n) as [[q|]|] eqn:Hn; cbn; try done.
  all: intros k p; cbn; destruct (decide (n = k)) as [->|Hne];
    [ rewrite lookup_insert_eq; intros [= <-];
      rewrite lookup_app_r, Nat.sub_diag by lia; cbn; eauto
    | rewrite lookup_insert_ne by done; intros Hk;
      destruct (Hwf k p Hk) as (h & Hh & Hname);
      exists h; split; [|done]; rewrite lookup_app_l; [done|];
      by apply lookup_lt_Some in Hh ].
Qed.

(** What a [Get] does that finds the registry mutex free: it returns a
    pointer at an allocated handler of the name and leaves the map
    pointing at it.  When the name was mapped to a handler, that same
    pointer comes back and nothing changes; otherwise the handler is new,
    with state Uninitialized, no runners, no sandbox and no fetched code.
    A later such [Get] of the name, after any number of others, returns
    the same pointer. *)
Lemma Get_unlocked (join : list string -> string) (n : string) (taken : list Mutex)
    (r : Registry) :
  RegMu ∉ taken -> wfRegistry r ->
  let p := (getOrInsert join n r).1 in
  let r' := (getOrInsert join n r).2 in
  Get join n taken r = (Returns (p, r'), [ELock RegMu; EUnlock RegMu]) /\
  handlers (hset r') !! n = Some (Some p) /\
  wfRegistry r' /\
  (exists h, heap r' !! p = Some h /\ name h = n /\
     match handlers (hset r) !! n with
     | Some (Some q) => p = q /\ r' = r
     | _ => heap r !! p = None /\
            h = newHandler join n (workerDir (hset r)) /\
            state h = Unitialized /\ runners h = 0 /\ sandbox h = None /\
            lastPull h = None /\ fs h = None /\
            heap r' = heap r ++ [h]
     end) /\
  forall ns, getOrInsert join n (Gets join ns r') = (p, Gets join ns r').
Proof.
  intros Hfree Hwf p r'.
  assert (Hlook : handlers (hset r') !! n = Some (Some p)).
  { subst p r'. unfold getOrInsert.
    destruct (handlers (hset r) !! n) as [[q|]|] eqn:Hn; cbn; try done.
    all: by rewrite lookup_insert_eq. }
  split_and!.
  - unfold Get. rewrite decide_False by done. by destruct (getOrInsert join n r).
  - done.
  - by apply getOrInsert_wfRegistry.
  - subst p r'. unfold getOrInsert in *.
    destruct (handlers (hset r) !! n) as [[q|]|] eqn:Hn; cbn in *.
    + destruct (Hwf n q Hn) as (h & Hh & Hname). exists h. split_and!; done.
    + eexists. rewrite lookup_app_r, Nat.sub_diag by lia. cbn.
      split_and!; try done. by apply lookup_ge_None.
    + eexists. rewrite lookup_app_r, Nat.sub_diag by lia. cbn.
      split_and!; try done. by apply lookup_ge_None.
  - intros ns. pose proof (Gets_keeps_entry join ns n p r' Hlook) as Hk.
    unfold getOrInsert at 1. by rewrite Hk.
Qed.

(** ** HandlerSet.Dump *)

Lemma dumpEntries_nil (hp : list Handler) (es : list (string * option nat)) (k : string) :
  (k, None) ∈ es -> dumpEntries hp es = None.
Proof.
  induction es as [|[k' v] es IH]; intros Hin.
  - by apply elem_of_nil in Hin.
  - apply elem_of_cons in Hin as [Heq|Hin].
    + by simplify_eq.
    + cbn. destruct v as [p|]; [|done]. destruct (hp !! p); [|done].
      by rewrite (IH Hin).
Qed.

Lemma dumpEntries_allocated (hp : list Handler) (es : list (string * option nat)) :
  Forall (fun e => exists p, e.2 = Some p /\ (p < length hp)%nat) es ->
  is_Some (dumpEntries hp es).
Proof.
  induction es as [|[k v] es IH]; intros Hes; [by eexists|].
  apply Forall_cons in Hes as [(p & Hv & Hp) Hes]. cbn in Hv. subst v. cbn.
  destruct (lookup_lt_is_Some_2 hp p Hp) as [h ->].
  destruct (IH Hes) as [evs ->]. by eexists.
Qed.

(** ** The reaper: its use of the registry mutex *)

Ltac unfold_r :=
  unfold scan, visit, rLock, rUnlock, rDefer, rUnlink, rSleep, rHandler, rev_emit,
    rstop, rbind, rret in *.

Lemma visit_under_registry_lock (others : nat -> list Handler -> list Handler)
    (fuel : nat) (k : string) (p : nat) (rp : Reaper) (h : Handler) :
  held rp = [RegMu] -> heap (reg rp) !! p = Some h ->
  let r := visit others fuel (k, Some p) rp in
  reg r.2 = reg rp /\ sleeps r.2 = sleeps rp /\
  ((r.1 = inl (Deadlock RegMu) /\ held r.2 = [HMu p; RegMu] /\
    events r.2 = events rp ++ [ELock (HMu p)]) \/
   (r.1 = inr tt /\ held r.2 = [RegMu] /\
    events r.2 = events rp ++ [ELock (HMu p); EUnlock (HMu p)])).
Proof.
  intros Hheld Hh. destruct rp as [g hl df sl ev]. cbn in *. subst hl.
  unfold_r. cbn.
  rewrite decide_False by (rewrite list_elem_of_singleton; discriminate). cbn.
  rewrite Hh. cbn.
  destruct (bool_decide (sandbox h <> None) && bool_decide (fs h = None)); cbn.
  - rewrite decide_True by (rewrite !elem_of_cons; auto). cbn. split_and!; try done. by left.
  - rewrite decide_True by (rewrite !elem_of_cons; auto). cbn.
    rewrite decide_False by (intros Hx; by apply Hx). 
    rewrite decide_True by discriminate. cbn.
    rewrite <- app_assoc. cbn. split_and!; try done. by right.
Qed.

Lemma visitAll_under_registry_lock (others : nat -> list Handler -> list Handler)
    (fuel : nat) (es : list (string * option nat)) (rp : Reaper) :
  held rp = [RegMu] ->
  Forall (fun e => exists p h, e.2 = Some p /\ heap (reg rp) !! p = Some h) es ->
  let r := visitAll others fuel es rp in
  reg r.2 = reg rp /\ sleeps r.2 = sleeps rp /\ RegMu ∈ held r.2 /\
  (r.1 = inl (Deadlock RegMu) \/ (r.1 = inr tt /\ held r.2 = [RegMu])) /\
  exists evs, events r.2 = events rp ++ evs /\
              Forall (fun e => ~ releases_or_clears e) evs.
Proof.
  revert rp. induction es as [|[k v] es IH]; intros rp Hheld Hes.
  - cbn. rewrite Hheld. split_and!; try done; [by apply list_elem_of_singleton | by right |].
    exists []. by rewrite app_nil_r.
  - apply Forall_cons in Hes as [(p & h & Hv & Hh) Hes]. cbn in Hv. subst v.
    pose proof (visit_under_registry_lock others fuel k p rp h Hheld Hh) as Hvis.
    cbn zeta in Hvis.
    assert (Heq : visitAll others fuel ((k, Some p) :: es) rp =
                  match visit others fuel (k, Some p) rp with
                  | (inl st, r') => (inl st, r')
                  | (inr _, r') => visitAll others fuel es r'
                  end) by reflexivity.
    rewrite Heq. clear Heq.
    destruct (visit others fuel (k, Some p) rp) as [o r1]. cbn in Hvis.
    destruct Hvis as (Hreg & Hsl & [(-> & Hh1 & Hev)|(-> & Hh1 & Hev)]).
    + cbn. rewrite Hh1. split_and!; try done; [rewrite !elem_of_cons; auto | by left |].
      exists [ELock (HMu p)]. split; [done|].
      repeat constructor. intros [?|[? ?]]; discriminate.
    + rewrite <- Hreg in Hes. destruct (IH r1 Hh1 Hes) as (Hreg' & Hsl' & Hin & Hres & evs & Hev' & Hno).
      split_and!; try congruence; try done.
      exists ([ELock (HMu p); EUnlock (HMu p)] ++ evs). split.
      * rewrite Hev', Hev. by rewrite <- app_assoc.
      * apply Forall_app. split; [|done].
        repeat constructor; intros [?|[? ?]]; discriminate.
Qed.

Lemma scan_takes_and_keeps_lock (others : nat -> list Handler -> list Handler)
    (fuel : nat) (rp : Reaper) :
  held rp = [] -> no_nil_slot (reg rp) ->
  (forall k hp, length (others k hp) = length hp) ->
  let r := scan others fuel rp in
  hset (reg r.2) = hset (reg rp) /\
  length (heap (reg r.2)) = length (heap (reg rp)) /\
  RegMu ∈ held r.2 /\
  (r.1 = inl (Deadlock RegMu) \/ (r.1 = inr tt /\ held r.2 = [RegMu])) /\
  exists evs, events r.2 = events rp ++ evs /\
              Forall (fun e => ~ releases_or_clears e) evs.
Proof.
  intros Hheld Hok Hlen. destruct rp as [[S hp] hl df sl ev].
  cbn in Hheld, Hok. subst hl.
  assert (Heq : scan others fuel (mkReaper (mkRegistry S hp) [] df sl ev) =
                visitAll others fuel (map_to_list (handlers S))
                  (mkReaper (mkRegistry S (others sl hp)) [RegMu] (RegMu :: df)
                            (Datatypes.S sl)
                            (((ev ++ [ESleep 5]) ++ [ELock RegMu]) ++ [EDeferUnlock RegMu])))
    by reflexivity.
  rewrite Heq. clear Heq.
  match goal with |- context [visitAll _ _ _ ?x] => set (rp1 := x) end.
  assert (Hes : Forall (fun e => exists p h, e.2 = Some p /\ heap (reg rp1) !! p = Some h)
                       (map_to_list (handlers S))).
  { apply Forall_forall. intros [k v] Hin. apply elem_of_map_to_list in Hin.
    destruct (Hok k v Hin) as (p & -> & Hp). cbn in Hp |- *.
    destruct (lookup_lt_is_Some_2 (others sl hp) p) as [h Hh]; [rewrite Hlen; lia|].
    eauto. }
  destruct (visitAll_under_registry_lock others fuel _ rp1 eq_refl Hes)
    as (Hreg & _ & Hin & Hres & evs & Hev & Hno).
  split_and!; try done.
  - by rewrite Hreg.
  - rewrite Hreg. cbn. apply Hlen.
  - exists ([ESleep 5; ELock RegMu; EDeferUnlock RegMu] ++ evs). split.
    + rewrite Hev. cbn. by rewrite <- !app_assoc.
    + apply Forall_app. split; [|done].
      repeat constructor; intros [?|[? ?]]; discriminate.
Qed.

Lemma scan_relocks (others : nat -> list Handler -> list Handler) (fuel : nat) (rp : Reaper) :
  held rp = [RegMu] ->
  let r := scan others fuel rp in
  r.1 = inl (Deadlock RegMu) /\ held r.2 = [RegMu] /\
  hset (reg r.2) = hset (reg rp) /\ events r.2 = events rp ++ [ESleep 5].
Proof.
  intros Hheld. destruct rp as [[S hp] hl df sl ev]. cbn in Hheld. subst hl.
  unfold_r. cbn. done.
Qed.

(** Whatever the registry holds, provided no slot is nil, and whatever
    the other goroutines do to the handlers: the reaper comes to a stop in
    a [Lock] of the registry mutex that it holds itself, in its first scan
    when that scan meets an orphan and on entering the second scan
    otherwise; it never unlocks the registry mutex and never clears a
    slot. *)
Lemma killOrphans_self_deadlock (others : nat -> list Handler -> list Handler)
    (n fuel : nat) (rp : Reaper) :
  held rp = [] -> no_nil_slot (reg rp) ->
  (forall k hp, length (others k hp) = length hp) ->
  (2 <= n)%nat ->
  let r := killOrphans others n fuel rp in
  r.1 = inl (Deadlock RegMu) /\ RegMu ∈ held r.2 /\
  hset (reg r.2) = hset (reg rp) /\
  exists evs, events r.2 = events rp ++ evs /\
              Forall (fun e => ~ releases_or_clears e) evs.
Proof.
  intros Hheld Hok Hlen Hn. destruct n as [|[|n]]; [lia | lia |].
  assert (Heq : killOrphans others (S (S n)) fuel rp =
                match scan others fuel rp with
                | (inl st, r') => (inl st, r')
                | (inr _, r') =>
                    match scan others fuel r' with
                    | (inl st, r'') => (inl st, r'')
                    | (inr _, r'') => killOrphans others n fuel r''
                    end
                end) by reflexivity.
  cbn zeta. rewrite Heq. clear Heq.
  pose proof (scan_takes_and_keeps_lock others fuel rp Hheld Hok Hlen) as H1.
  cbn zeta in H1. destruct (scan others fuel rp) as [o r1]. cbn in H1.
  destruct H1 as (Hs & _ & Hin & [->|[-> Hh1]] & evs & Hev & Hno).
  - cbn. split_and!; try done. eauto.
  - pose proof (scan_relocks others fuel r1 Hh1) as H2. cbn zeta in H2.
    destruct (scan others fuel r1) as [o2 r2]. cbn in H2.
    destruct H2 as (-> & Hh2 & Hs2 & Hev2). cbn.
    split_and!; try congruence.
    exists (evs ++ [ESleep 5]). split.
    + rewrite Hev2, Hev. by rewrite <- app_assoc.
    + apply Forall_app. split; [done|].
      repeat constructor; intros [?|[? ?]]; discriminate.
Qed.

(** C1. What the code does.  On the registry holding the orphan "f", the
    reaper locks the registry mutex, defers the unlock, locks the
    handler, and then locks the registry mutex again while it holds it:
    it stops there, holding both.  On the empty registry the first scan
    ends with the registry mutex still held (the deferred unlock waits for
    a return that never comes), and the second scan stops in its first
    [Lock].  In neither run is the registry mutex ever unlocked. *)
Theorem killOrphans_relocks_held_registry_mutex :
  killOrphans idle 3 3 (freshReaper orphanRegistry) =
    (inl (Deadlock RegMu),
     mkReaper orphanRegistry [HMu 0; RegMu] [RegMu] 1
              [ESleep 5; ELock RegMu; EDeferUnlock RegMu; ELock (HMu 0)]) /\
  killOrphans idle 3 3 (freshReaper emptyRegistry) =
    (inl (Deadlock RegMu),
     mkReaper emptyRegistry [RegMu] [RegMu] 2
              [ESleep 5; ELock RegMu; EDeferUnlock RegMu; ESleep 5]).
Proof. split; reflexivity. Qed.

(** ** The registry mutex once the reaper has it *)

Lemma scan_blocked (others : nat -> list Handler -> list Handler) (fuel : nat) (rp : Reaper) :
  RegMu ∈ held rp ->
  scan others fuel rp =
    (inl (Deadlock RegMu),
     mkReaper (mkRegistry (hset (reg rp)) (others (sleeps rp) (heap (reg rp))))
              (held rp) (deferred rp) (S (sleeps rp)) (events rp ++ [ESleep 5])).
Proof.
  intros Hheld. destruct rp as [[S hp] hl df sl ev]. cbn in Hheld.
  unfold_r. cbn. by rewrite decide_True by done.
Qed.

(** From its first scan on, the reaper holds the registry mutex, however
    many scans are followed. *)
Lemma reaper_keeps_registry_mutex (others : nat -> list Handler -> list Handler)
    (n fuel : nat) (g : Registry) :
  no_nil_slot g -> keeps_allocation others ->
  RegMu ∈ held (killOrphans others (S n) fuel (freshReaper g)).2.
Proof.
  intros Hok Hlen. destruct n as [|n].
  - assert (Heq : killOrphans others 1 fuel (freshReaper g) =
                  match scan others fuel (freshReaper g) with
                  | (inl st, r') => (inl st, r')
                  | (inr _, r') => (inl OutOfFuel, r')
                  end) by reflexivity.
    rewrite Heq. clear Heq.
    pose proof (scan_takes_and_keeps_lock others fuel (freshReaper g) eq_refl Hok Hlen) as H.
    cbn zeta in H. destruct (scan others fuel (freshReaper g)) as [[st|[]] r1]; cbn in *; tauto.
  - by destruct (killOrphans_self_deadlock others (S (S n)) fuel (freshReaper g)
                   eq_refl Hok Hlen ltac:(lia)) as (_ & Hin & _).
Qed.

(** For every registry without a nil slot: once the reaper has begun to
    scan, a [Get] waits for the registry mutex, at whatever later moment
    it is called. *)
Lemma Get_waits_for_reaper (others : nat -> list Handler -> list Handler)
    (n fuel : nat) (g : Registry) (join : list string -> string) (nm : string) :
  no_nil_slot g -> keeps_allocation others ->
  let rp := (killOrphans others (S n) fuel (freshReaper g)).2 in
  Get join nm (held rp) (reg rp) = (Waits RegMu, []).
Proof.
  intros Hok Hlen rp. unfold Get.
  by rewrite decide_True by (by apply reaper_keeps_registry_mutex).
Qed.

(** C7. What the code does.  With the registry mutex free, [Get] is the
    get-or-insert of [Get_unlocked]: on the set as [NewHandlerSet] leaves
    it, [Get] of "f" allocates the handler at address 0, and a second
    [Get] of "f" returns the same address.  But that set has a pool
    manager, so the reaper runs: from its first scan on it holds the
    registry mutex and never unlocks it, and every [Get] called from then
    on, for whatever name and after however many scans, waits in
    [h.mutex.Lock()] and does not return. *)
Theorem Get_waits_once_the_reaper_scans :
  Get join_slash "f" [] emptyRegistry =
    (Returns (0%nat, (getOrInsert join_slash "f" emptyRegistry).2),
     [ELock RegMu; EUnlock RegMu]) /\
  Get join_slash "f" [] (getOrInsert join_slash "f" emptyRegistry).2 =
    (Returns (0%nat, (getOrInsert join_slash "f" emptyRegistry).2),
     [ELock RegMu; EUnlock RegMu]) /\
  forall (join : list string -> string) (nm : string) (n fuel : nat),
    (forall taken, RegMu ∉ taken ->
       (Get join nm taken emptyRegistry).1 = Returns (getOrInsert join nm emptyRegistry)) /\
    Get join nm (held (killOrphans idle (S n) fuel (freshReaper emptyRegistry)).2)
        (reg (killOrphans idle (S n) fuel (freshReaper emptyRegistry)).2) =
      (Waits RegMu, []).
Proof.
  split_and!; [reflexivity | reflexivity |].
  intros join nm n fuel. split.
  - intros taken Hfree. unfold Get. by rewrite decide_False by done.
  - apply Get_waits_for_reaper; [|done].
    intros k v Hk. cbn in Hk. by rewrite lookup_empty in Hk.
Qed.

(** ** No nil slot is ever stored *)

Lemma reachableR_inv (rp : Reaper) :
  reachableR rp ->
  no_nil_slot (reg rp) /\ (held rp = [] \/ RegMu ∈ held rp) /\
  Forall (fun e => ~ releases_or_clears e) (events rp).
Proof.
  induction 1 as [S HS|join n rp p g _ IH HG|rp g _ IH Hh Hl|others fuel rp _ IH Hlen].
  - split_and!; [|by left|constructor].
    intros k v Hk. cbn in Hk. rewrite HS in Hk. by rewrite lookup_empty in Hk.
  - destruct IH as (Hok & Hheld & Hev). cbn. split_and!; [|done|done].
    unfold Get in HG. destruct (decide (RegMu ∈ held rp)); [done|].
    cbn in HG. injection HG as HG.
    unfold getOrInsert in HG.
    destruct (handlers (hset (reg rp)) !! n) as [[q|]|] eqn:Hn; simplify_eq; [done|..].
    all: intros k v; cbn; destruct (decide (n = k)) as [->|Hne];
      [ rewrite lookup_insert_eq; intros [= <-]; eexists; split; [done|];
        rewrite length_app; cbn; lia
      | rewrite lookup_insert_ne by done; intros Hk;
        destruct (Hok k v Hk) as (q & -> & Hq);
        eexists; split; [done|]; rewrite length_app; cbn; lia ].
  - destruct IH as (Hok & Hheld & Hev). cbn. split_and!; [|done|done].
    intros k v Hk. rewrite Hh in Hk. destruct (Hok k v Hk) as (q & -> & Hq).
    exists q. split; [done|]. by rewrite Hl.
  - destruct IH as (Hok & [Hheld|Hheld] & Hev).
    + pose proof (scan_takes_and_keeps_lock others fuel rp Hheld Hok Hlen) as Hs.
      cbn zeta in Hs. destruct Hs as (Hset & Hl & Hin & _ & evs & Hevs & Hno).
      split_and!; [|by right|].
      * intros k v Hk. rewrite Hset in Hk. destruct (Hok k v Hk) as (q & -> & Hq).
        exists q. split; [done|]. by rewrite Hl.
      * rewrite Hevs. apply Forall_app. by split.
    + rewrite (scan_blocked others fuel rp Hheld). cbn. split_and!; [|by right|].
      * intros k v Hk. cbn in Hk. destruct (Hok k v Hk) as (q & -> & Hq).
        exists q. split; [done|]. cbn. by rewrite Hlen.
      * apply Forall_app. split; [done|].
        repeat constructor; intros [?|[? ?]]; discriminate.
Qed.

Lemma reachableR_scan_outcome (others : nat -> list Handler -> list Handler)
    (fuel : nat) (rp : Reaper) :
  reachableR rp -> keeps_allocation others ->
  (scan others fuel rp).1 = inl (Deadlock RegMu) \/ (scan others fuel rp).1 = inr tt.
Proof.
  intros Hreach Hlen. destruct (reachableR_inv rp Hreach) as (Hok & [Hheld|Hheld] & _).
  - pose proof (scan_takes_and_keeps_lock others fuel rp Hheld Hok Hlen) as Hs.
    cbn zeta in Hs. destruct Hs as (_ & _ & _ & [?|[? _]] & _); auto.
  - rewrite (scan_blocked others fuel rp Hheld). by left.
Qed.

Lemma reachableR_killOrphans (others : nat -> list Handler -> list Handler)
    (n fuel : nat) (rp : Reaper) :
  reachableR rp -> keeps_allocation others ->
  (killOrphans others n fuel rp).1 <> inl NilDeref /\
  reachableR (killOrphans others n fuel rp).2.
Proof.
  intros Hreach Hlen. revert rp Hreach.
  induction n as [|n IH]; intros rp Hreach; [by split|].
  assert (Heq : killOrphans others (S n) fuel rp =
                match scan others fuel rp with
                | (inl st, r') => (inl st, r')
                | (inr _, r') => killOrphans others n fuel r'
                end) by reflexivity.
  rewrite Heq. clear Heq.
  pose proof (reachR_scan others fuel rp Hreach Hlen) as Hnext.
  pose proof (reachableR_scan_outcome others fuel rp Hreach Hlen) as Hout.
  destruct (scan others fuel rp) as [[st|[]] r1]; cbn in *.
  - destruct Hout as [Hout|Hout]; [|done]. injection Hout as ->. by split.
  - by apply IH.
Qed.

(** C10. In every state the registry and the reaper can come to, every
    value of the handlers map is a pointer at an allocated handler, none
    is nil.  So [Dump] never panics on a nil handler there, and neither
    does the reaper, however many scans it goes on to make.  The reaper
    never clears a slot: the assignment of nil on line 134 comes after the
    [Lock] on line 133, which it does not get past, so no nil is ever
    stored. *)
Theorem registry_never_holds_nil (rp : Reaper) :
  reachableR rp ->
  (forall k v, handlers (hset (reg rp)) !! k = Some v ->
     exists p h, v = Some p /\ heap (reg rp) !! p = Some h) /\
  (forall taken, (Dump taken (reg rp)).1 <> Panics) /\
  (forall n, ESetNil n ∉ events rp) /\
  forall others n fuel, keeps_allocation others ->
    (killOrphans others n fuel rp).1 <> inl NilDeref /\
    (forall k, ESetNil k ∉ events (killOrphans others n fuel rp).2) /\
    handlers (hset (reg (killOrphans others n fuel rp).2)) = handlers (hset (reg rp)).
Proof.
  intros Hreach.
  assert (Hclear : forall r, reachableR r -> forall n, ESetNil n ∉ events r).
  { intros r Hr n Hin. destruct (reachableR_inv r Hr) as (_ & _ & Hev).
    rewrite Forall_forall in Hev. apply (Hev _ Hin). right. by exists n. }
  destruct (reachableR_inv rp Hreach) as (Hok & _ & _).
  split_and!.
  - intros k v Hk. destruct (Hok k v Hk) as (p & -> & Hp).
    destruct (lookup_lt_is_Some_2 _ _ Hp) as [h Hh]. eauto.
  - intros taken. unfold Dump. destruct (decide (RegMu ∈ taken)); [done|].
    destruct (dumpEntries_allocated (heap (reg rp)) (map_to_list (handlers (hset (reg rp)))))
      as [evs ->]; [|done].
    apply Forall_forall. intros [k v] Hin. apply elem_of_map_to_list in Hin.
    destruct (Hok k v Hin) as (p & -> & Hp). eauto.
  - by apply Hclear.
  - intros others n fuel Hlen.
    destruct (reachableR_killOrphans others n fuel rp Hreach Hlen) as [Hno Hr].
    split_and!; [done | by apply Hclear |].
    clear Hno Hr Hok. revert rp Hreach.
    induction n as [|n IH]; intros rp Hreach; [done|].
    assert (Heq : killOrphans others (S n) fuel rp =
                  match scan others fuel rp with
                  | (inl st, r') => (inl st, r')
                  | (inr _, r') => killOrphans others n fuel r'
                  end) by reflexivity.
    rewrite Heq. clear Heq.
    assert (Hset : handlers (hset (reg (scan others fuel rp).2)) =
                   handlers (hset (reg rp))).
    { destruct (reachableR_inv rp Hreach) as (Hok & [Hheld|Hheld] & _).
      - pose proof (scan_takes_and_keeps_lock others fuel rp Hheld Hok Hlen) as Hs.
        cbn zeta in Hs. destruct Hs as (-> & _). done.
      - by rewrite (scan_blocked others fuel rp Hheld). }
    pose proof (reachR_scan others fuel rp Hreach Hlen) as Hnext.
    destruct (scan others fuel rp) as [[st|[]] r1]; cbn in *; [done|].
    rewrite (IH r1 Hnext). done.
Qed.

Lemma registry_never_holds_nil_witness :
  reachableR scannedReaper /\
  handlers (hset (reg scannedReaper)) !! "f" = Some (Some 0%nat) /\
  held scannedReaper = [RegMu] /\
  (Dump [] (reg scannedReaper)).1 = Returns tt /\
  (killOrphans idle 2 3 scannedReaper).1 = inl (Deadlock RegMu) /\
  (killOrphans idle 2 3 scannedReaper).1 <> inl NilDeref.
Proof.
  assert (Hidle : keeps_allocation idle) by (intros k hp; reflexivity).
  assert (Hnew : reachableR (freshReaper emptyRegistry))
    by (apply (reachR_new demoSet); reflexivity).
  assert (Hone : reachableR oneHandlerReaper)
    by (apply (reachR_Get join_slash "f" (freshReaper emptyRegistry) 0%nat
                 (getOrInsert join_slash "f" emptyRegistry).2 Hnew); reflexivity).
  assert (Hr : reachableR scannedReaper) by (apply (reachR_scan idle 3 _ Hone Hidle)).
  destruct (registry_never_holds_nil scannedReaper Hr) as (_ & _ & _ & Hk).
  destruct (Hk idle 2%nat 3%nat Hidle) as (Hno & _).
  split_and!; [exact Hr | reflexivity | reflexivity | reflexivity | reflexivity | exact Hno].
Defined.

(** Line 134 read by itself: the assignment keeps the key and stores a nil
    pointer, on which [Dump] and a scan would panic.  As shown above, it
    is never executed. *)
Lemma cleared_slot_would_be_nil (n : string) (g : Registry) :
  handlers (hset (unlink n g)) !! n = Some None /\
  (Dump [] (unlink n g)).1 = Panics /\
  forall others fuel rp, visit others fuel (n, None) rp = (inl NilDeref, rp).
Proof.
  split_and!.
  - cbn. apply lookup_insert_eq.
  - unfold Dump. cbn [decide]. rewrite decide_False by apply not_elem_of_nil.
    rewrite (dumpEntries_nil _ _ n); [done|].
    apply elem_of_map_to_list. cbn. apply lookup_insert_eq.
  - done.
Qed.

(** ** RunStart on a handler that has a sandbox *)

Lemma RunStart_with_sandbox (fuel : nat) (E : Env) (s : RS) (sbx : Sandbox) (t : Z) :
  lastPull (hd s) = Some t -> sandbox (hd s) = Some sbx ->
  RunStart fuel E s = resume E s sbx.
Proof.
  intros Hlp Hsb. destruct s as [h S cs]. cbn in Hlp, Hsb.
  unfold resume. unfold_m. cbn. rewrite Hlp. cbn. rewrite Hsb. cbn.
  destruct (decide (state h = Paused)) as [Hp|Hp]; cbn.
  - destruct (Unpause E sbx) as [e|]; cbn.
    + by rewrite <- !app_assoc.
    + rewrite Hsb. cbn. by rewrite <- !app_assoc.
  - rewrite Hsb. cbn. by rewrite <- !app_assoc.
Qed.

(** X1. A handler that has a sandbox and is not marked Paused: RunStart
    calls nothing on the sandbox but [Channel].  It adds one to the
    handler-hit counter, sets the state to Running, counts the runner and
    returns what [Channel] answers.  The state need not have been Running:
    it is Stopped or Uninitialized when an earlier RunStart failed after
    the sandbox was recorded. *)
Theorem RunStart_hit_only_counts (fuel : nat) (E : Env) (s : RS) (sbx : Sandbox) :
  reachable s -> sandbox (hd s) = Some sbx -> state (hd s) <> Paused ->
  RunStart fuel E s =
    (Done (returned E sbx),
     mkRS (set_runners (wrap64 (runners (hd s) + 1)) (set_state Running (hd s)))
          (set_hhits (wrap64 (hhits (hs s) + 1)) (hs s))
          (calls s ++ [CLock; CAtomicAdd Chhits;
                       CLog (LogHits (wrap64 (hhits (hs s) + 1)) (ihits (hs s))
                                     (misses (hs s)));
                       CChannel sbx; CUnlock])).
Proof.
  intros Hreach Hsb Hst.
  destruct (reachable_wfH s Hreach) as [Hwf _].
  destruct (lastPull (hd s)) as [t|] eqn:Hlp; [|specialize (Hwf eq_refl); congruence].
  rewrite (RunStart_with_sandbox fuel E s sbx t Hlp Hsb).
  unfold resume. by rewrite decide_False by done.
Qed.

Lemma RunStart_hit_only_counts_witness :
  state (hd runningDemo) = Running /\
  runners (hd (RunStart 5 demoEnv runningDemo).2) = 2 /\
  state (hd timedOutDemo) = Stopped /\
  (RunStart 5 slowEnv timedOutDemo).1 = Done (Some 11%nat, None) /\
  newCalls timedOutDemo (RunStart 5 slowEnv timedOutDemo).2 =
    [CLock; CAtomicAdd Chhits; CLog (LogHits 1 1 0); CChannel demoSandbox; CUnlock].
Proof.
  assert (Hr : reachable runningDemo) by (apply reach_RunStart, reach_new).
  assert (Ht : reachable timedOutDemo) by (apply reach_RunStart, reach_new).
  assert (Hn1 : state (hd runningDemo) <> Paused) by (vm_compute; discriminate).
  assert (Hn2 : state (hd timedOutDemo) <> Paused) by (vm_compute; discriminate).
  pose proof (RunStart_hit_only_counts 5 demoEnv runningDemo demoSandbox Hr eq_refl Hn1) as H1.
  pose proof (RunStart_hit_only_counts 5 slowEnv timedOutDemo demoSandbox Ht eq_refl Hn2) as H2.
  split_and!.
  - reflexivity.
  - rewrite H1; vm_compute; reflexivity.
  - reflexivity.
  - rewrite H2; vm_compute; reflexivity.
  - vm_compute; reflexivity.
Defined.

(** X2. Once a handler has a sandbox, RunStart never brings one up again:
    whatever the collaborators answer, it makes none of the calls from
    [MkdirAll] to the readiness poll and does not ask the registry again,
    it returns (it cannot be left polling), the sandbox stays the recorded
    one, and the result is either what [Channel] answers or, for a handler
    marked Paused, the error of [Unpause].  So a sandbox whose first
    RunStart timed out is handed out by the next RunStart without any
    wait for its marker. *)
Theorem RunStart_boots_once (fuel : nat) (E : Env) (s : RS) (sbx : Sandbox) :
  reachable s -> sandbox (hd s) = Some sbx ->
  let r := RunStart fuel E s in
  Forall (fun c => is_boot_call c = false) (newCalls s r.2) /\
  (forall n, CPull n ∉ newCalls s r.2) /\
  sandbox (hd r.2) = Some sbx /\
  (r.1 = Done (returned E sbx) \/
   exists e, state (hd s) = Paused /\ Unpause E sbx = Some e /\
             r.1 = Done (None, Some (External e)) /\ hd r.2 = hd s).
Proof.
  intros Hreach Hsb.
  destruct (reachable_wfH s Hreach) as [Hwf _].
  destruct (lastPull (hd s)) as [t|] eqn:Hlp; [|specialize (Hwf eq_refl); congruence].
  cbn zeta. rewrite (RunStart_with_sandbox fuel E s sbx t Hlp Hsb).
  unfold resume, newCalls.
  destruct (decide (state (hd s) = Paused)) as [Hp|Hp];
    [destruct (Unpause E sbx) as [e|] eqn:Hu|]; cbn [fst snd calls hd];
    rewrite drop_app_length; cbn [app].
  - split_and!; [repeat constructor | not_in_calls | done |]. right. by exists e.
  - split_and!; [repeat constructor | not_in_calls | done |]. by left.
  - split_and!; [repeat constructor | not_in_calls | done |]. by left.
Qed.

Lemma RunStart_boots_once_witness :
  sandbox (hd timedOutDemo) = Some demoSandbox /\
  (RunStart 5 slowEnv freshDemo).1 = Done (None, Some init_timeout) /\
  Forall (fun c => is_boot_call c = false)
         (newCalls timedOutDemo (RunStart 0 slowEnv timedOutDemo).2) /\
  (RunStart 0 slowEnv timedOutDemo).1 = Done (Some 11%nat, None).
Proof.
  assert (Ht : reachable timedOutDemo) by (apply reach_RunStart, reach_new).
  destruct (RunStart_boots_once 0 slowEnv timedOutDemo demoSandbox Ht eq_refl)
    as (H1 & _ & _ & _).
  split_and!; [reflexivity | reflexivity | exact H1 | reflexivity].
Defined.

(** ** What RunStart leaves alone *)

Lemma polls_only (p : string) (n : nat) (c : Call) :
  c ∈ polls p n -> c = CStat p \/ c = CSince.
Proof.
  unfold polls. induction n as [|n IH]; cbn; intros Hin.
  - by apply elem_of_nil in Hin.
  - apply elem_of_cons in Hin as [->|Hin]; [by left|].
    apply elem_of_cons in Hin as [->|Hin]; [by right|]. by apply IH.
Qed.

(** Membership in a list of calls made of explicit calls and polls. *)
Ltac not_in_run :=
  let Hin := fresh "Hin" in
  intros; intros Hin;
  repeat first
    [ apply elem_of_cons in Hin as [Hin|Hin]; [discriminate|]
    | apply elem_of_app in Hin as [Hin|Hin];
      [apply polls_only in Hin as [Hin|Hin]; discriminate|] ];
  first [ by apply elem_of_nil in Hin
        | apply polls_only in Hin as [Hin|Hin]; discriminate ].

(** X3. Code is fetched at most once per handler.  RunStart never changes
    the handler's name, sandbox directory or usage; and once [lastPull] is
    set, RunStart does not call [Pull] and leaves [lastPull], the code
    directory and the package list as they are, whatever else happens in
    the call. *)
Theorem RunStart_fetches_once (fuel : nat) (E : Env) (s : RS) :
  let r := RunStart fuel E s in
  name (hd r.2) = name (hd s) /\ sandboxDir (hd r.2) = sandboxDir (hd s) /\
  usage (hd r.2) = usage (hd s) /\
  forall t, lastPull (hd s) = Some t ->
    lastPull (hd r.2) = Some t /\ codeDir (hd r.2) = codeDir (hd s) /\
    pkgs (hd r.2) = pkgs (hd s) /\ forall n, CPull n ∉ newCalls s r.2.
Proof.
  destruct s as [h S cs]. cbn zeta.
  destruct (lastPull h) as [t0|] eqn:Hlp.
  - unfold_m. cbn. rewrite Hlp. cbn.
    repeat (split_match; cbn in *; simplify_eq).
    all: split_and!; try done; intros t [= <-].
    all: calls_norm; split_and!; try done; not_in_run.
  - unfold_m. cbn. rewrite Hlp. cbn.
    repeat (split_match; cbn in *; simplify_eq).
    all: split_and!; done.
Qed.

Lemma RunStart_fetches_once_witness :
  lastPull (hd runningDemo) = Some 1000 /\
  codeDir (hd (RunStart 5 pullFailEnv runningDemo).2) = "/registry/f" /\
  (RunStart 5 pullFailEnv runningDemo).1 = Done (Some 11%nat, None).
Proof.
  destruct (RunStart_fetches_once 5 pullFailEnv runningDemo) as (_ & _ & _ & H).
  destruct (H 1000 eq_refl) as (_ & Hcd & _).
  split_and!; [reflexivity | | vm_compute; reflexivity].
  rewrite Hcd. vm_compute. reflexivity.
Defined.

(** X4. The three shared counters.  RunStart on a handler that has a
    sandbox adds one to the handler hits and leaves the other two, also
    when it then fails in [Unpause].  On a handler without a sandbox it
    leaves the handler hits, and adds one to at most one of import hits
    and misses: nothing while no sandbox is recorded, never an import hit
    without a pool manager, and on success exactly one of the two, the
    import hits only if [Provision] reported a hit. *)
Theorem RunStart_counts_once (fuel : nat) (E : Env) (s : RS) :
  reachable s ->
  let r := RunStart fuel E s in
  let S := hs s in
  let S' := hs r.2 in
  match sandbox (hd s) with
  | Some _ =>
      hhits S' = wrap64 (hhits S + 1) /\ ihits S' = ihits S /\ misses S' = misses S
  | None =>
      hhits S' = hhits S /\
      ((ihits S' = ihits S /\ misses S' = misses S) \/
       (ihits S' = wrap64 (ihits S + 1) /\ misses S' = misses S /\ poolMgr S = true) \/
       (ihits S' = ihits S /\ misses S' = wrap64 (misses S + 1))) /\
      (sandbox (hd r.2) = None -> ihits S' = ihits S /\ misses S' = misses S) /\
      (forall ch, r.1 = Done (ch, None) ->
         (ihits S' = wrap64 (ihits S + 1) /\ misses S' = misses S /\ poolMgr S = true) \/
         (ihits S' = ihits S /\ misses S' = wrap64 (misses S + 1)))
  end.
Proof.
  intros Hreach. destruct (reachable_wfH s Hreach) as [Hwf _].
  destruct s as [h S cs]. cbn in Hwf. cbn zeta. cbn [hs hd].
  destruct (sandbox h) as [sbx|] eqn:Hsb.
  - destruct (lastPull h) as [t|] eqn:Hlp; [|specialize (Hwf eq_refl); congruence].
    rewrite (RunStart_with_sandbox fuel E (mkRS h S cs) sbx t Hlp Hsb).
    unfold resume. cbn [hd hs calls].
    destruct (decide (state h = Paused)); [destruct (Unpause E sbx)|]; done.
  - unfold_m. cbn. 
    repeat (split_match; cbn in *; simplify_eq).
    all: try (destruct (pollOutcome_cases fuel E 0) as [Hp|[Hp|Hp]];
              rewrite Hp in *; cbn in * ).
    all: split_and!; try done; try tauto; try (intros; congruence);
      try (intros ch Hch; destruct (Channel E _) as [? [?|]]; cbn in *; (tauto || congruence)).
Qed.

Lemma RunStart_counts_once_witness :
  reachable freshDemo /\
  ihits (hs (RunStart 5 demoEnv freshDemo).2) = 1 /\
  misses (hs (RunStart 5 demoEnv freshDemo).2) = 0 /\
  hhits (hs (RunStart 5 demoEnv runningDemo).2) = 1.
Proof.
  assert (Hf : reachable freshDemo) by apply reach_new.
  assert (Hr : reachable runningDemo) by (apply reach_RunStart, reach_new).
  pose proof (RunStart_counts_once 5 demoEnv freshDemo Hf) as H1.
  pose proof (RunStart_counts_once 5 demoEnv runningDemo Hr) as H2.
  cbn zeta in H1, H2.
  change (sandbox (hd freshDemo)) with (@None Sandbox) in H1.
  change (sandbox (hd runningDemo)) with (Some demoSandbox) in H2.
  destruct H1 as (_ & _ & _ & H1). destruct H2 as (H2 & _).
  split_and!; [exact Hf | vm_compute; reflexivity | vm_compute; reflexivity |].
  rewrite H2. vm_compute. reflexivity.
Defined.

(** ** The handler's mutex *)

Lemma RunStart_body_calls (fuel : nat) (E : Env) (s : RS) :
  (RunStart_body fuel E s).1 <> Panic /\
  exists mid, calls (RunStart_body fuel E s).2 = calls s ++ mid /\
              (CLock ∉ mid) /\ (CUnlock ∉ mid).
Proof.
  destruct s as [h S cs]. unfold RunStart_body, createSandbox, lruRemove, lruAdd,
    atomicAdd, check, call, emit, modH, modS, getH, getS, throw, panic, spin, bind, ret.
  cbn. repeat (split_match; cbn in *; simplify_eq).
  all: try (destruct (pollOutcome_cases fuel E 0) as [Hp|[Hp|Hp]];
            rewrite Hp in *; cbn in * ).
  all: split; [done|].
  all: rewrite <- ?app_assoc; cbn; eexists; split_and!; [reflexivity | not_in_run ..].
Qed.

(** X5. RunStart takes the handler's mutex first and holds it until it
    returns: through the creation of the sandbox and through the whole
    readiness poll.  Every return, each error return included, unlocks it
    as its last act; while the call is still polling the mutex has not
    been unlocked.  RunStart never panics. *)
Theorem RunStart_holds_mutex_until_return (fuel : nat) (E : Env) (s : RS) :
  let r := RunStart fuel E s in
  r.1 <> Panic /\
  exists mid, (CLock ∉ mid) /\ (CUnlock ∉ mid) /\
    newCalls s r.2 = match r.1 with
                     | Spin => CLock :: mid
                     | _ => CLock :: mid ++ [CUnlock]
                     end.
Proof.
  destruct s as [h S cs].
  destruct (RunStart_body_calls fuel E (mkRS h S (cs ++ [CLock])))
    as (Hnp & mid & Hcalls & Hl & Hu).
  cbn zeta. unfold RunStart, locked. cbn [hd hs calls].
  destruct (RunStart_body fuel E (mkRS h S (cs ++ [CLock]))) as [o s1].
  cbn in Hcalls, Hnp. destruct s1 as [h1 S1 cs1]. cbn in Hcalls. subst cs1.
  destruct o as [a|e| |]; cbn; try done.
  all: split; [done|]; exists mid; split_and!; try done.
  all: unfold newCalls; cbn; rewrite <- ?app_assoc; rewrite drop_app_length; done.
Qed.

(** ** RunStart and RunFinish together *)

(** X6. One request on a handler leaves the handler as it was.  After a
    RunStart that counts the request in, the RunFinish of that request
    returns the handler to exactly the record it was before, in two
    cases: other requests are in flight (state Running, one runner at
    least), or the handler is idle (state Paused, no runner) and the
    sandbox is paused again.  In the idle case the handler is taken off
    the LRU and put back in front. *)
Theorem request_leaves_handler_as_it_was (fuel : nat) (E E' : Env) (s : RS) (sbx : Sandbox) :
  reachable s -> sandbox (hd s) = Some sbx ->
  (state (hd s) = Running /\ 1 <= runners (hd s) < max_int) \/
  (state (hd s) = Paused /\ runners (hd s) = 0 /\ Unpause E sbx = None) ->
  let s1 := (RunStart fuel E s).2 in
  let s2 := (RunFinish E' s1).2 in
  (RunStart fuel E s).1 = Done (returned E sbx) /\
  runners (hd s1) = runners (hd s) + 1 /\ state (hd s1) = Running /\
  (RunFinish E' s1).1 = Done tt /\
  hd s2 = hd s /\
  lru (hs s2) =
    (if decide (state (hd s) = Paused)
     then lru_Add (name (hd s)) (usage (hd s)) (lru_Remove (name (hd s)) (lru (hs s)))
     else lru (hs s)) /\
  (CPause sbx ∈ newCalls s1 s2 <-> state (hd s) = Paused).
Proof.
  intros Hreach Hsb Hcase.
  destruct (reachable_wfH s Hreach) as [Hwf _].
  destruct (lastPull (hd s)) as [t|] eqn:Hlp; [|specialize (Hwf eq_refl); congruence].
  cbn zeta. rewrite (RunStart_with_sandbox fuel E s sbx t Hlp Hsb).
  unfold resume. destruct s as [h S cs]. cbn [hd hs calls] in *.
  destruct h as [nm sb lp st rn cd ps sd f us]. cbn in Hsb, Hlp, Hcase. subst sb lp.
  destruct Hcase as [(-> & Hrn)|(-> & -> & Hu)].
  - rewrite decide_False by done. cbn [fst snd hd hs app].
    match goal with |- context [mkRS _ _ (cs ++ ?L)] => generalize (cs ++ L); intros cs1 end.
    assert (Hw : wrap64 (rn + 1) = rn + 1)
      by (apply wrap64_id; unfold min_int, max_int in *; lia).
    assert (Hw' : wrap64 (rn + 1 - 1) = rn)
      by (replace (rn + 1 - 1) with rn by lia; apply wrap64_id;
          unfold min_int, max_int in *; lia).
    unfold RunFinish, locked, bind, modH, getH, ret. cbn. rewrite Hw, Hw'.
    destruct (rn =? 0) eqn:Hz; [apply Z.eqb_eq in Hz; lia|]. cbn.
    split_and!; try done.
    unfold newCalls. cbn. rewrite <- app_assoc, drop_app_length.
    split; [|done]. intros Hin.
    repeat (apply elem_of_cons in Hin as [Hin|Hin]; [discriminate|]).
    by apply elem_of_nil in Hin.
  - rewrite decide_True by done. rewrite Hu. cbn [fst snd hd hs app].
    match goal with |- context [mkRS _ _ (cs ++ ?L)] => generalize (cs ++ L); intros cs1 end.
    unfold RunFinish, locked, bind, modH, modS, getH, ret, lruAdd, call, emit.
    cbn -[wrap64]. change (wrap64 (0 + 1)) with 1. change (wrap64 (1 - 1)) with 0. cbn.
    destruct (Pause E' sbx) as [e|]; cbn.
    all: split_and!; try done.
    all: unfold newCalls; cbn.
    all: rewrite <- ?app_assoc; rewrite drop_app_length.
    all: split; [done|]; intros _; apply list_elem_of_In; cbn; auto.
Qed.

Lemma request_leaves_handler_as_it_was_witness :
  reachable pausedDemo /\ reachable runningDemo /\
  hd (RunFinish demoEnv (RunStart 5 demoEnv pausedDemo).2).2 = hd pausedDemo /\
  hd (RunFinish demoEnv (RunStart 5 demoEnv runningDemo).2).2 = hd runningDemo.
Proof.
  assert (Hr : reachable runningDemo) by (apply reach_RunStart, reach_new).
  assert (Hp : reachable pausedDemo) by (apply reach_RunFinish, Hr).
  assert (Hc1 : (state (hd pausedDemo) = Running /\ 1 <= runners (hd pausedDemo) < max_int) \/
                (state (hd pausedDemo) = Paused /\ runners (hd pausedDemo) = 0 /\
                 Unpause demoEnv demoSandbox = None))
    by (right; split_and!; reflexivity).
  assert (Hc2 : (state (hd runningDemo) = Running /\
                 1 <= runners (hd runningDemo) < max_int) \/
                (state (hd runningDemo) = Paused /\ runners (hd runningDemo) = 0 /\
                 Unpause demoEnv demoSandbox = None)).
  { left. split; [reflexivity|]. change (runners (hd runningDemo)) with 1.
    unfold max_int. lia. }
  destruct (request_leaves_handler_as_it_was 5 demoEnv demoEnv pausedDemo demoSandbox
              Hp eq_refl Hc1) as (_ & _ & _ & _ & H1 & _).
  destruct (request_leaves_handler_as_it_was 5 demoEnv demoEnv runningDemo demoSandbox
              Hr eq_refl Hc2) as (_ & _ & _ & _ & H2 & _).
  split_and!; [exact Hp | exact Hr | exact H1 | exact H2].
Defined.

(** X7. RunFinish has no guard against a call without a RunStart of its
    own.  On a handler with no runner (runners zero or below) it only
    takes one off the count: no Pause, no change of state, nothing added
    to the LRU, no panic.  After such a call on an idle handler that has a
    sandbox, the next request is out of step: its RunStart leaves runners
    at zero with the state Running, and its RunFinish takes runners to
    minus one without pausing the sandbox. *)
Theorem RunFinish_unpaired_goes_negative (E : Env) (s : RS) :
  min_int < runners (hd s) <= 0 ->
  RunFinish E s =
    (Done tt, mkRS (set_runners (runners (hd s) - 1) (hd s)) (hs s)
                   (calls s ++ [CLock; CUnlock])) /\
  forall sbx fuel E1 E2,
    reachable s -> runners (hd s) = 0 -> sandbox (hd s) = Some sbx ->
    (state (hd s) = Paused -> Unpause E1 sbx = None) ->
    let s1 := (RunFinish E s).2 in
    let s2 := (RunStart fuel E1 s1).2 in
    let s3 := (RunFinish E2 s2).2 in
    (RunStart fuel E1 s1).1 = Done (returned E1 sbx) /\
    runners (hd s2) = 0 /\ state (hd s2) = Running /\
    (RunFinish E2 s2).1 = Done tt /\
    runners (hd s3) = -1 /\ state (hd s3) = Running /\
    newCalls s2 s3 = [CLock; CUnlock].
Proof.
  intros Hrn.
  assert (Hfin : forall E0 s0, min_int < runners (hd s0) <= 0 ->
            RunFinish E0 s0 =
              (Done tt, mkRS (set_runners (runners (hd s0) - 1) (hd s0)) (hs s0)
                             (calls s0 ++ [CLock; CUnlock]))).
  { intros E0 [h0 S0 cs0] H0. cbn in H0.
    unfold RunFinish, locked, bind, modH, getH, ret. cbn -[wrap64].
    rewrite (wrap64_id (runners h0 - 1)) by (unfold min_int, max_int in *; lia).
    destruct (runners h0 - 1 =? 0) eqn:Hz; [apply Z.eqb_eq in Hz; lia|].
    cbn. by rewrite <- app_assoc. }
  split; [by apply Hfin|].
  intros sbx fuel E1 E2 Hreach Hzero Hsb Hun. cbn zeta.
  rewrite (Hfin E s Hrn). cbn [snd].
  destruct (reachable_wfH s Hreach) as [Hwf _].
  destruct (lastPull (hd s)) as [t|] eqn:Hlp; [|specialize (Hwf eq_refl); congruence].
  rewrite (RunStart_with_sandbox fuel E1 _ sbx t) by done.
  unfold resume. cbn [hd hs calls]. rewrite Hzero.
  change (wrap64 (0 - 1 + 1)) with 0.
  assert (Hres : forall X : RS, runners (hd X) = 0 -> state (hd X) = Running ->
            (RunFinish E2 X).1 = Done tt /\ runners (hd (RunFinish E2 X).2) = -1 /\
            state (hd (RunFinish E2 X).2) = Running /\
            newCalls X (RunFinish E2 X).2 = [CLock; CUnlock]).
  { intros X Hx Hst. rewrite (Hfin E2 X) by (rewrite Hx; unfold min_int; lia).
    cbn. rewrite Hx. split_and!; try done.
    unfold newCalls. cbn. by rewrite drop_app_length. }
  destruct (decide (state (set_runners (0 - 1) (hd s)) = Paused)) as [Hp|Hp].
  - rewrite Hun by done. cbn [fst snd]. split_and!; try done; by apply Hres.
  - cbn [fst snd]. split_and!; try done; by apply Hres.
Qed.

Lemma RunFinish_unpaired_goes_negative_witness :
  runners (hd pausedDemo) = 0 /\
  runners (hd (RunFinish demoEnv pausedDemo).2) = -1 /\
  runners (hd (RunStart 5 demoEnv (RunFinish demoEnv pausedDemo).2).2) = 0 /\
  state (hd (RunStart 5 demoEnv (RunFinish demoEnv pausedDemo).2).2) = Running.
Proof.
  assert (Hr : reachable pausedDemo)
    by (apply reach_RunFinish, reach_RunStart, reach_new).
  assert (Hrn : min_int < runners (hd pausedDemo) <= 0)
    by (change (runners (hd pausedDemo)) with 0; unfold min_int; lia).
  destruct (RunFinish_unpaired_goes_negative demoEnv pausedDemo Hrn) as [H1 H2].
  destruct (H2 demoSandbox 5%nat demoEnv demoEnv Hr eq_refl eq_refl (fun _ => eq_refl))
    as (_ & H3 & H4 & _).
  split_and!; [reflexivity | | exact H3 | exact H4].
  rewrite H1. reflexivity.
Defined.

(** ** Handler.nuke *)

(** X8. The teardown does not reset the handler.  On a handler with a
    sandbox, [nuke] calls Unpause, Stop and Remove on it, in that order
    and whatever Unpause answers, and leaves every field of the handler
    as it was: the removed sandbox stays recorded.  So a RunStart after
    the teardown creates no new sandbox and polls no marker; it hands out
    the removed one.  On a handler without a sandbox [nuke] panics. *)
Theorem nuke_keeps_the_removed_sandbox (E : Env) (s : RS) :
  (sandbox (hd s) = None -> (nuke E s).1 = Panic) /\
  forall sbx, sandbox (hd s) = Some sbx ->
    nuke E s = (Done tt, mkRS (hd s) (hs s)
                              (calls s ++ [CUnpause sbx; CStop sbx; CRemove sbx])) /\
    (reachable s -> forall fuel E',
       let r := RunStart fuel E' (nuke E s).2 in
       sandbox (hd r.2) = Some sbx /\
       Forall (fun c => is_boot_call c = false) (newCalls (nuke E s).2 r.2) /\
       (r.1 = Done (returned E' sbx) \/
        exists e, Unpause E' sbx = Some e /\ r.1 = Done (None, Some (External e)))).
Proof.
  split.
  - intros Hsb. destruct s as [h S cs]. cbn in Hsb. unfold nuke, bind, getH. cbn.
    by rewrite Hsb.
  - intros sbx Hsb.
    assert (Hn : nuke E s = (Done tt, mkRS (hd s) (hs s)
                               (calls s ++ [CUnpause sbx; CStop sbx; CRemove sbx]))).
    { destruct s as [h S cs]. cbn in Hsb.
      unfold nuke, bind, getH, call, emit, ret. cbn. rewrite Hsb. cbn.
      by rewrite <- !app_assoc. }
    split; [done|]. intros Hreach fuel E'. rewrite Hn. cbn [snd]. cbn zeta.
    destruct (reachable_wfH s Hreach) as [Hwf _].
    destruct (lastPull (hd s)) as [t|] eqn:Hlp; [|specialize (Hwf eq_refl); congruence].
    rewrite (RunStart_with_sandbox fuel E' _ sbx t) by done.
    unfold resume, newCalls. cbn [hd hs calls].
    destruct (decide (state (hd s) = Paused)) as [Hp|Hp];
      [destruct (Unpause E' sbx) as [e|] eqn:Hu|]; cbn [fst snd calls hd];
      rewrite drop_app_length; cbn [app].
    + split_and!; [done | repeat constructor |]. right. by exists e.
    + split_and!; [done | repeat constructor |]. by left.
    + split_and!; [done | repeat constructor |]. by left.
Qed.

Lemma nuke_keeps_the_removed_sandbox_witness :
  sandbox (hd pausedDemo) = Some demoSandbox /\
  newCalls pausedDemo (nuke demoEnv pausedDemo).2 =
    [CUnpause demoSandbox; CStop demoSandbox; CRemove demoSandbox] /\
  (RunStart 5 demoEnv (nuke demoEnv pausedDemo).2).1 = Done (Some 11%nat, None).
Proof.
  assert (Hr : reachable pausedDemo)
    by (apply reach_RunFinish, reach_RunStart, reach_new).
  destruct (nuke_keeps_the_removed_sandbox demoEnv pausedDemo) as [_ H].
  destruct (H demoSandbox eq_refl) as [H1 _].
  split_and!; [reflexivity | | vm_compute; reflexivity].
  rewrite H1. unfold newCalls. cbn [snd calls]. by rewrite drop_app_length.
Defined.

(** ** More on HandlerSet.Get and HandlerSet.Dump *)

Lemma getOrInsert_frame (join : list string -> string) (n : string) (r : Registry) :
  (forall i h, heap r !! i = Some h -> heap (getOrInsert join n r).2 !! i = Some h) /\
  (forall k, k <> n ->
     handlers (hset (getOrInsert join n r).2) !! k = handlers (hset r) !! k) /\
  workerDir (hset (getOrInsert join n r).2) = workerDir (hset r).
Proof.
  unfold getOrInsert.
  destruct (handlers (hset r) !! n) as [[q|]|] eqn:Hn; cbn; split_and!; try done.
  all: try (intros i h Hi; rewrite lookup_app_l; [done | by apply lookup_lt_Some in Hi]).
  all: intros k Hk; by rewrite lookup_insert_ne.
Qed.

(** X9. Two names never share a handler.  With the registry mutex free,
    [Get] of a name and then [Get] of another name return different
    pointers; the second call leaves the first name's slot, every handler
    allocated before, and every other slot as they were. *)
Theorem Get_keeps_names_apart (join : list string -> string) (n m : string)
    (taken : list Mutex) (r : Registry) :
  wfRegistry r -> RegMu ∉ taken -> n <> m ->
  let p := (getOrInsert join n r).1 in
  let r1 := (getOrInsert join n r).2 in
  let q := (getOrInsert join m r1).1 in
  let r2 := (getOrInsert join m r1).2 in
  (Get join n taken r).1 = Returns (p, r1) /\
  (Get join m taken r1).1 = Returns (q, r2) /\
  p <> q /\
  handlers (hset r2) !! n = Some (Some p) /\
  handlers (hset r2) !! m = Some (Some q) /\
  (forall i h, heap r !! i = Some h -> heap r2 !! i = Some h) /\
  (forall k, k <> n -> k <> m -> handlers (hset r2) !! k = handlers (hset r) !! k).
Proof.
  intros Hwf Hfree Hnm p r1 q r2.
  destruct (Get_unlocked join n taken r Hfree Hwf) as (Hg1 & Hl1 & Hwf1 & (h & Hh & Hname & _) & _).
  destruct (Get_unlocked join m taken r1 Hfree Hwf1) as (Hg2 & Hl2 & Hwf2 & (h' & Hh' & Hname' & _) & _).
  fold p r1 in Hg1, Hl1, Hwf1, Hh. fold q r2 in Hg2, Hl2, Hwf2, Hh'.
  destruct (getOrInsert_frame join n r) as (Hf1 & Hk1 & _).
  destruct (getOrInsert_frame join m r1) as (Hf2 & Hk2 & _).
  fold r1 in Hf1, Hk1. fold r2 in Hf2, Hk2.
  split_and!.
  - by rewrite Hg1.
  - by rewrite Hg2.
  - intros Heq. apply Hf2 in Hh. rewrite Heq in Hh. congruence.
  - rewrite Hk2 by done. done.
  - done.
  - intros i x Hi. by apply Hf2, Hf1.
  - intros k Hkn Hkm. rewrite Hk2, Hk1 by done. done.
Qed.

Lemma Get_keeps_names_apart_witness :
  wfRegistry emptyRegistry /\
  (getOrInsert join_slash "f" emptyRegistry).1 = 0%nat /\
  (getOrInsert join_slash "g" (getOrInsert join_slash "f" emptyRegistry).2).1 = 1%nat /\
  (getOrInsert join_slash "f" emptyRegistry).1 <>
  (getOrInsert join_slash "g" (getOrInsert join_slash "f" emptyRegistry).2).1.
Proof.
  assert (Hwf : wfRegistry emptyRegistry) by (intros k p Hk; discriminate).
  assert (Hfree : RegMu ∉ @nil Mutex) by apply not_elem_of_nil.
  assert (Hne : "f" <> "g") by discriminate.
  destruct (Get_keeps_names_apart join_slash "f" "g" [] emptyRegistry Hwf Hfree Hne)
    as (_ & _ & H & _).
  split_and!; [exact Hwf | reflexivity | reflexivity | exact H].
Defined.

Lemma dumpEntries_lines (hp : list Handler) (es : list (string * option nat))
    (evs : list REvent) :
  dumpEntries hp es = Some evs ->
  length evs = length es /\
  forall k p h, (k, Some p) ∈ es -> hp !! p = Some h ->
                EPrint (LogHandler k (state h)) ∈ evs.
Proof.
  revert evs. induction es as [|[k v] es IH]; intros evs Hd; cbn in Hd.
  - simplify_eq. split; [done|]. intros k p h Hin. by apply elem_of_nil in Hin.
  - destruct v as [p|]; [|done]. destruct (hp !! p) as [h|] eqn:Hp; [|done].
    destruct (dumpEntries hp es) as [evs'|]; [|done]. simplify_eq.
    destruct (IH evs' eq_refl) as [Hlen Hin]. split; [cbn; lia|].
    intros k' p' h' Hk Hh. apply elem_of_cons in Hk as [Heq|Hk].
    + simplify_eq. apply elem_of_cons. by left.
    + apply elem_of_cons. right. by apply (Hin k' p' h').
Qed.

(** X10. With the registry mutex free and no nil slot in the map, [Dump]
    returns: between the Lock and the Unlock it prints the header and
    then one line for each entry of the map, no more, the line of a name
    showing the state of the handler the name maps to.  With the registry
    mutex taken it waits and prints nothing. *)
Theorem Dump_prints_every_handler (taken : list Mutex) (r : Registry) :
  no_nil_slot r ->
  (RegMu ∈ taken -> Dump taken r = (Waits RegMu, [])) /\
  (RegMu ∉ taken ->
   exists lines,
     Dump taken r =
       (Returns tt, [ELock RegMu; EPrint LogHandlers] ++ lines ++ [EUnlock RegMu]) /\
     length lines = size (handlers (hset r)) /\
     forall k p h, handlers (hset r) !! k = Some (Some p) -> heap r !! p = Some h ->
                   EPrint (LogHandler k (state h)) ∈ lines).
Proof.
  intros Hok. unfold Dump. split; intros Ht.
  - by rewrite decide_True by done.
  - rewrite decide_False by done.
    destruct (dumpEntries_allocated (heap r) (map_to_list (handlers (hset r))))
      as [evs Hevs].
    { apply Forall_forall. intros [k v] Hin. apply elem_of_map_to_list in Hin.
      destruct (Hok k v Hin) as (p & -> & Hp). eauto. }
    rewrite Hevs. exists evs. split; [done|].
    destruct (dumpEntries_lines _ _ _ Hevs) as [Hlen Hin].
    split; [by rewrite Hlen, length_map_to_list|].
    intros k p h Hk Hh. apply (Hin k p h); [|done]. by apply elem_of_map_to_list.
Qed.

Lemma Dump_prints_every_handler_witness :
  no_nil_slot (reg scannedReaper) /\
  Dump [] (reg oneHandlerReaper) =
    (Returns tt, [ELock RegMu; EPrint LogHandlers; EPrint (LogHandler "f" Unitialized);
                  EUnlock RegMu]) /\
  Dump (held scannedReaper) (reg scannedReaper) = (Waits RegMu, []).
Proof.
  assert (Hok : no_nil_slot (reg scannedReaper)).
  { intros k v Hk.
    change (handlers (hset (reg scannedReaper)))
      with (<["f" := Some 0%nat]> (∅ : gmap string (option nat))) in Hk.
    change (length (heap (reg scannedReaper))) with 1%nat.
    destruct (decide ("f" = k)) as [<-|Hne].
    - rewrite lookup_insert_eq in Hk. injection Hk as <-. exists 0%nat. split; [done|lia].
    - rewrite lookup_insert_ne in Hk by done. by rewrite lookup_empty in Hk. }
  destruct (Dump_prints_every_handler (held scannedReaper) (reg scannedReaper) Hok)
    as [Hw _].
  split_and!; [exact Hok | reflexivity |].
  apply Hw. change (held scannedReaper) with [RegMu]. by apply list_elem_of_singleton.
Defined.

Lemma getOrInsert_only_gets (join : list string -> string) (wd n : string) (r : Registry) :
  only_gets join wd r ->
  only_gets join wd (getOrInsert join n r).2 /\
  dom (handlers (hset (getOrInsert join n r).2)) = {[n]} ∪ dom (handlers (hset r)).
Proof.
  intros (Hwd & Hlen & Hall). unfold getOrInsert.
  destruct (handlers (hset r) !! n) as [[q|]|] eqn:Hn; cbn.
  - split; [done|]. apply set_eq. intros k. rewrite elem_of_union, elem_of_singleton.
    rewrite !elem_of_dom. split; [auto|]. intros [->|Hk]; [by rewrite Hn | done].
  - destruct (Hall n None Hn) as (p & Hp & _). done.
  - split; [|by rewrite dom_insert_L].
    split_and!; [done | |].
    + cbn [heap hset handlers set_handlers]. rewrite length_app. cbn [length].
      rewrite map_size_insert_None by done. lia.
    + cbn [heap hset handlers set_handlers]. intros k v. destruct (decide (n = k)) as [<-|Hne].
      * rewrite lookup_insert_eq. intros [= <-]. eexists. split; [done|].
        rewrite lookup_app_r, Nat.sub_diag by lia. cbn. by rewrite Hwd.
      * rewrite lookup_insert_ne by done. intros Hk.
        destruct (Hall k v Hk) as (p & -> & Hp). exists p. split; [done|].
        rewrite lookup_app_l; [done | by apply lookup_lt_Some in Hp].
Qed.

Lemma Gets_only_gets (join : list string -> string) (wd : string) (ns : list string)
    (r : Registry) :
  only_gets join wd r ->
  only_gets join wd (Gets join ns r) /\
  dom (handlers (hset (Gets join ns r))) = list_to_set ns ∪ dom (handlers (hset r)).
Proof.
  revert r. induction ns as [|n ns IH]; intros r Hr.
  - split; [done|]. cbn. by rewrite union_empty_l_L.
  - destruct (getOrInsert_only_gets join wd n r Hr) as [Hr1 Hd1].
    destruct (IH _ Hr1) as [Hr2 Hd2]. split; [done|].
    change (Gets join (n :: ns) r) with (Gets join ns (getOrInsert join n r).2).
    rewrite Hd2, Hd1. cbn [list_to_set foldr].
    by rewrite (assoc_L (∪)), (comm_L (∪) (list_to_set ns)).
Qed.

(** X11. One handler for each name.  Start from the empty map that
    [NewHandlerSet] makes and let any calls of [Get] follow, each finding
    the registry mutex free, for any names in any order and with repeats.
    Then the names mapped are exactly the names asked for, as many
    handlers are allocated as there are distinct names, each name maps to
    a handler as [Get] makes it for that name, and no two names map to the
    same handler. *)
Theorem Gets_one_handler_per_name (join : list string -> string) (ns : list string)
    (S0 : HandlerSet) :
  handlers S0 = ∅ ->
  let r := Gets join ns (mkRegistry S0 []) in
  dom (handlers (hset r)) = list_to_set ns /\
  length (heap r) = size (handlers (hset r)) /\
  (forall n, n ∈ ns ->
     exists p, handlers (hset r) !! n = Some (Some p) /\
               heap r !! p = Some (newHandler join n (workerDir S0))) /\
  (forall n m p, handlers (hset r) !! n = Some (Some p) ->
                 handlers (hset r) !! m = Some (Some p) -> n = m).
Proof.
  intros Hempty r.
  assert (H0 : only_gets join (workerDir S0) (mkRegistry S0 [])).
  { split_and!; [done | cbn; by rewrite Hempty, map_size_empty |].
    intros k v Hk. cbn in Hk. by rewrite Hempty, lookup_empty in Hk. }
  destruct (Gets_only_gets join (workerDir S0) ns _ H0) as [(Hwd & Hlen & Hall) Hdom].
  fold r in Hwd, Hlen, Hall, Hdom. cbn [hset handlers] in Hdom.
  rewrite Hempty, dom_empty_L, union_empty_r_L in Hdom.
  split_and!; [done | done | |].
  - intros n Hn.
    assert (Hin : n ∈ dom (handlers (hset r)))
      by (rewrite Hdom; by apply elem_of_list_to_set).
    apply elem_of_dom in Hin as [v Hv].
    destruct (Hall n v Hv) as (p & -> & Hp). eauto.
  - intros n m p Hn Hm.
    destruct (Hall n _ Hn) as (p1 & [= <-] & Hp1).
    destruct (Hall m _ Hm) as (p2 & [= <-] & Hp2).
    rewrite Hp1 in Hp2. by injection Hp2.
Qed.

Lemma Gets_one_handler_per_name_witness :
  handlers demoSet = ∅ /\
  length (heap (Gets join_slash ["f"; "g"; "f"; "f"; "g"] emptyRegistry)) = 2%nat /\
  size (handlers (hset (Gets join_slash ["f"; "g"; "f"; "f"; "g"] emptyRegistry))) = 2%nat.
Proof.
  destruct (Gets_one_handler_per_name join_slash ["f"; "g"; "f"; "f"; "g"] demoSet eq_refl)
    as (_ & Hlen & _).
  split_and!; [reflexivity | reflexivity |].
  unfold emptyRegistry. rewrite <- Hlen. reflexivity.
Defined.

(** ** The reaper never reaps *)

Lemma visitAll_only_locks (others : nat -> list Handler -> list Handler)
    (fuel : nat) (es : list (string * option nat)) (rp : Reaper) :
  held rp = [RegMu] ->
  Forall (fun e => exists p h, e.2 = Some p /\ heap (reg rp) !! p = Some h) es ->
  exists evs, events (visitAll others fuel es rp).2 = events rp ++ evs /\
              Forall (fun e => only_locks_and_sleeps e = true) evs.
Proof.
  revert rp. induction es as [|[k v] es IH]; intros rp Hheld Hes.
  - exists []. cbn. by rewrite app_nil_r.
  - apply Forall_cons in Hes as [(p & h & Hv & Hh) Hes]. cbn in Hv. subst v.
    pose proof (visit_under_registry_lock others fuel k p rp h Hheld Hh) as Hvis.
    cbn zeta in Hvis.
    assert (Heq : visitAll others fuel ((k, Some p) :: es) rp =
                  match visit others fuel (k, Some p) rp with
                  | (inl st, r') => (inl st, r')
                  | (inr _, r') => visitAll others fuel es r'
                  end) by reflexivity.
    rewrite Heq. clear Heq.
    destruct (visit others fuel (k, Some p) rp) as [o r1]. cbn in Hvis.
    destruct Hvis as (Hreg & Hsl & [(-> & Hh1 & Hev)|(-> & Hh1 & Hev)]).
    + exists [ELock (HMu p)]. cbn. split; [done|]. by repeat constructor.
    + rewrite <- Hreg in Hes. destruct (IH r1 Hh1 Hes) as (evs & Hev' & Hall).
      exists ([ELock (HMu p); EUnlock (HMu p)] ++ evs). split.
      * rewrite Hev', Hev. by rewrite <- app_assoc.
      * apply Forall_app. split; [by repeat constructor | done].
Qed.

Lemma scan_only_locks (others : nat -> list Handler -> list Handler)
    (fuel : nat) (rp : Reaper) :
  held rp = [] -> no_nil_slot (reg rp) -> keeps_allocation others ->
  exists evs, events (scan others fuel rp).2 = events rp ++ evs /\
              Forall (fun e => only_locks_and_sleeps e = true) evs.
Proof.
  intros Hheld Hok Hlen. destruct rp as [[S hp] hl df sl ev].
  cbn in Hheld, Hok. subst hl.
  assert (Heq : scan others fuel (mkReaper (mkRegistry S hp) [] df sl ev) =
                visitAll others fuel (map_to_list (handlers S))
                  (mkReaper (mkRegistry S (others sl hp)) [RegMu] (RegMu :: df)
                            (Datatypes.S sl)
                            (((ev ++ [ESleep 5]) ++ [ELock RegMu]) ++ [EDeferUnlock RegMu])))
    by reflexivity.
  rewrite Heq. clear Heq.
  match goal with |- context [visitAll _ _ _ ?x] => set (rp1 := x) end.
  assert (Hes : Forall (fun e => exists p h, e.2 = Some p /\ heap (reg rp1) !! p = Some h)
                       (map_to_list (handlers S))).
  { apply Forall_forall. intros [k v] Hin. apply elem_of_map_to_list in Hin.
    destruct (Hok k v Hin) as (p & -> & Hp). cbn in Hp |- *.
    destruct (lookup_lt_is_Some_2 (others sl hp) p) as [h Hh]; [rewrite Hlen; lia|].
    eauto. }
  destruct (visitAll_only_locks others fuel _ rp1 eq_refl Hes) as (evs & Hev & Hall).
  exists ([ESleep 5; ELock RegMu; EDeferUnlock RegMu] ++ evs). split.
  - rewrite Hev. cbn. by rewrite <- !app_assoc.
  - apply Forall_app. split; [by repeat constructor | done].
Qed.

(** X12. The orphan reaper never reaps.  On every registry without a nil
    slot, whatever the other goroutines do to the handlers and however
    many scans are followed, the reaper only sleeps, locks and defers, and
    unlocks handler mutexes: it never unlocks the registry mutex, never
    clears a slot and never starts a teardown, so the registry is as it
    found it.  From its first scan on it holds the registry mutex, and by
    the second scan at the latest it has stopped in a [Lock] of that
    mutex. *)
Theorem reaper_never_reaps (others : nat -> list Handler -> list Handler)
    (n fuel : nat) (g : Registry) :
  no_nil_slot g -> keeps_allocation others ->
  let r := killOrphans others n fuel (freshReaper g) in
  Forall (fun e => only_locks_and_sleeps e = true) (events r.2) /\
  hset (reg r.2) = hset g /\
  ((1 <= n)%nat -> RegMu ∈ held r.2) /\
  ((2 <= n)%nat -> r.1 = inl (Deadlock RegMu)).
Proof.
  intros Hok Hlen. destruct n as [|n]; [by split_and!; try done; lia|].
  assert (Heq : killOrphans others (S n) fuel (freshReaper g) =
                match scan others fuel (freshReaper g) with
                | (inl st, r') => (inl st, r')
                | (inr _, r') => killOrphans others n fuel r'
                end) by reflexivity.
  cbn zeta. rewrite Heq. clear Heq.
  pose proof (scan_takes_and_keeps_lock others fuel (freshReaper g) eq_refl Hok Hlen) as H1.
  destruct (scan_only_locks others fuel (freshReaper g) eq_refl Hok Hlen) as (evs & Hev & Hall).
  cbn zeta in H1. destruct (scan others fuel (freshReaper g)) as [o r1]. cbn in H1, Hev.
  destruct H1 as (Hs & _ & Hin & [->|[-> Hh1]] & _).
  - cbn. rewrite Hev. split_and!; done.
  - destruct n as [|n].
    + cbn. rewrite Hev. split_and!; try done. lia.
    + assert (Heq : killOrphans others (S n) fuel r1 =
                    match scan others fuel r1 with
                    | (inl st, r') => (inl st, r')
                    | (inr _, r') => killOrphans others n fuel r'
                    end) by reflexivity.
      rewrite Heq. clear Heq.
      rewrite (scan_blocked others fuel r1) by done. cbn.
      rewrite Hev. split_and!; try done.
      apply Forall_app. split; [done | by repeat constructor].
Qed.

Lemma reaper_never_reaps_witness :
  no_nil_slot orphanRegistry /\
  events (killOrphans idle 4 3 (freshReaper orphanRegistry)).2 =
    [ESleep 5; ELock RegMu; EDeferUnlock RegMu; ELock (HMu 0)] /\
  handlers (hset (reg (killOrphans idle 4 3 (freshReaper orphanRegistry)).2)) !! "f" =
    Some (Some 0%nat).
Proof.
  assert (Hok : no_nil_slot orphanRegistry).
  { intros k v Hk.
    change (handlers (hset orphanRegistry))
      with (<["f" := Some 0%nat]> (∅ : gmap string (option nat))) in Hk.
    change (length (heap orphanRegistry)) with 1%nat.
    destruct (decide ("f" = k)) as [<-|Hne].
    - rewrite lookup_insert_eq in Hk. injection Hk as <-. exists 0%nat. split; [done|lia].
    - rewrite lookup_insert_ne in Hk by done. by rewrite lookup_empty in Hk. }
  assert (Hidle : keeps_allocation idle) by (intros k hp; reflexivity).
  destruct (reaper_never_reaps idle 4 3 orphanRegistry Hok Hidle) as (_ & Hs & _).
  split_and!; [exact Hok | reflexivity |].
  rewrite Hs. reflexivity.
Defined.

(** ** HandlerSet.Get with the registry mutex free, NewHandlerSet *)

(** X13. While the registry mutex is free, [Get] is one get-or-insert
    between a Lock and an Unlock of it.  It returns a pointer at an
    allocated handler of the name and leaves the map pointing at it.  A
    name that was mapped to a handler gets that same pointer and nothing
    changes; otherwise the handler is new: state Uninitialized, no runner,
    no sandbox, no fetched code, no fork server.  A later [Get] of the
    name, after any number of others, returns the same pointer and
    changes nothing. *)
Theorem Get_free_mutex_get_or_insert (join : list string -> string) (n : string)
    (taken : list Mutex) (r : Registry) :
  RegMu ∉ taken -> wfRegistry r ->
  exists p r',
    Get join n taken r = (Returns (p, r'), [ELock RegMu; EUnlock RegMu]) /\
    handlers (hset r') !! n = Some (Some p) /\
    wfRegistry r' /\
    (exists h, heap r' !! p = Some h /\ name h = n /\
       match handlers (hset r) !! n with
       | Some (Some q) => p = q /\ r' = r
       | _ => heap r !! p = None /\
              state h = Unitialized /\ runners h = 0 /\ sandbox h = None /\
              lastPull h = None /\ fs h = None /\
              heap r' = heap r ++ [h]
       end) /\
    forall ns, Get join n taken (Gets join ns r') =
                 (Returns (p, Gets join ns r'), [ELock RegMu; EUnlock RegMu]).
Proof.
  intros Hfree Hwf.
  destruct (Get_unlocked join n taken r Hfree Hwf) as (Hg & Hl & Hwf' & (h & Hh & Hname & Hm) & Hs).
  eexists _, _. split_and!; [exact Hg | exact Hl | exact Hwf' | |].
  - exists h. split_and!; [done | done |].
    destruct (handlers (hset r) !! n) as [[q|]|]; [done | |];
      destruct Hm as (H0 & _ & H2 & H3 & H4 & H5 & H6 & H7); by split_and!.
  - intros ns. unfold Get. rewrite decide_False by done. by rewrite Hs.
Qed.

Lemma Get_free_mutex_get_or_insert_witness :
  (RegMu ∉ @nil Mutex) /\ wfRegistry emptyRegistry /\
  (Get join_slash "f" [] emptyRegistry).1 =
    Returns (0%nat, (getOrInsert join_slash "f" emptyRegistry).2) /\
  heap (getOrInsert join_slash "f" emptyRegistry).2 = [newHandler join_slash "f" "/w"] /\
  (Get join_slash "f" [] (Gets join_slash ["g"; "f"; "h"]
                            (getOrInsert join_slash "f" emptyRegistry).2)).1 =
    Returns (0%nat, Gets join_slash ["g"; "f"; "h"]
                      (getOrInsert join_slash "f" emptyRegistry).2).
Proof.
  assert (Hfree : RegMu ∉ @nil Mutex) by apply not_elem_of_nil.
  assert (Hwf : wfRegistry emptyRegistry) by (intros k p Hk; discriminate).
  destruct (Get_free_mutex_get_or_insert join_slash "f" [] emptyRegistry Hfree Hwf)
    as (p & r' & Hg & _).
  split_and!; [exact Hfree | exact Hwf | | reflexivity | reflexivity].
  rewrite Hg. cbn [fst]. f_equal.
  assert (Heq : (Returns (p, r'), [ELock RegMu; EUnlock RegMu]) =
                Get join_slash "f" [] emptyRegistry) by (symmetry; exact Hg).
  vm_compute in Heq. injection Heq as -> ->. vm_compute. reflexivity.
Defined.

